(** * AMMINA / PharmaQuery dashboard: the client-side controller, verified

    A shallow embedding of the browser code of the repository
    (the HTTP gateway [API], the utility class [UI], the login page's
    [LoginManager], and the two application controllers
    [PharmaQueryApp] and [AMINAApp]) together with the properties the
    specification states about them.

    Conventions of the embedding:
    - an [async] method is a function from the outcome of every request
      it awaits (the server's answer, or the exception the gateway
      throws) to the resulting controller state, together with the
      trace of requests it issued;
    - markup assigned to [innerHTML] is represented by its parse tree:
      the static part of a template literal is a tree of elements, every
      interpolation [${e}] in content position is a [Raw] leaf holding
      the interpolated string verbatim, and every interpolation inside an
      attribute is part of the attribute's value.  White space that
      only separates tags is not represented;
    - JavaScript strings whose characters are inspected one by one are
      sequences of UTF-16 code units ([list N]); strings that are only
      carried around are Rocq strings. *)

From Stdlib Require Import NArith ZArith Ascii String Lia.
From stdpp Require Import base option list strings gmap pretty.

Open Scope string_scope.
Set Warnings "-register-all".

(** ** JavaScript strings as code units *)

Module JsString.

(** A JavaScript string: its UTF-16 code units, [s.length] is [length s]. *)
Definition t := list N.

(** The code units of a literal written in this file (ASCII only). *)
Definition units (s : string) : t :=
  map N_of_ascii (list_ascii_of_string s).

(** [/[...]/.test(s)] for a regular expression that is one character
    class: some code unit of [s] belongs to the class. *)
Definition test_class (cls : N -> bool) (s : t) : bool := existsb cls s.

End JsString.

(** ** The login page: [LoginManager.validatePassword] *)

Module Login.
Import JsString.

(** [/[A-Z]/] *)
Definition isUppercase (c : N) : bool := ((65 <=? c) && (c <=? 90))%N.
(** [/[a-z]/] *)
Definition isLowercase (c : N) : bool := ((97 <=? c) && (c <=? 122))%N.
(** [/\d/] (no [u] flag: the ASCII digits only) *)
Definition isNumber (c : N) : bool := ((48 <=? c) && (c <=? 57))%N.
(** The character class of the fifth regular expression, by code unit:
    exclamation mark 33, at sign 64, hash 35, dollar 36, percent 37,
    caret 94, ampersand 38, asterisk 42, parentheses 40 and 41, comma 44,
    full stop 46, question mark 63, double quote 34, colon 58, braces
    123 and 125, vertical bar 124, angle brackets 60 and 62. *)
Definition specialSet : list N :=
  [33; 64; 35; 36; 37; 94; 38; 42; 40; 41; 44; 46; 63; 34; 58; 123; 125;
   124; 60; 62]%N.
Definition isSpecial (c : N) : bool := existsb (N.eqb c) specialSet.

(** The object literal [{ valid, message }] the method returns. *)
Record validation := Validation { valid : bool; message : string }.

Definition msgLength := "Password must be at least 8 characters long".
Definition msgUppercase :=
  "Password must contain at least one uppercase letter".
Definition msgLowercase :=
  "Password must contain at least one lowercase letter".
Definition msgNumber := "Password must contain at least one number".
Definition msgSpecial :=
  "Password must contain at least one special character (!@#$%^&*)".
Definition msgStrong := "Password is strong".

(** The local [rules] object. *)
Record rules := Rules {
  minLength : bool;
  hasUppercase : bool;
  hasLowercase : bool;
  hasNumber : bool;
  hasSpecial : bool
}.

Definition passwordRules (password : JsString.t) : rules :=
  {| minLength := (8 <=? length password)%nat;
     hasUppercase := test_class isUppercase password;
     hasLowercase := test_class isLowercase password;
     hasNumber := test_class isNumber password;
     hasSpecial := test_class isSpecial password |}.

Definition validatePassword (password : JsString.t) : validation :=
  let rules := passwordRules password in
  if negb (minLength rules) then Validation false msgLength
  else if negb (hasUppercase rules) then Validation false msgUppercase
  else if negb (hasLowercase rules) then Validation false msgLowercase
  else if negb (hasNumber rules) then Validation false msgNumber
  else if negb (hasSpecial rules) then Validation false msgSpecial
  else Validation true msgStrong.

(** *** The policy as the specification words it

    Five rules in the fixed order length, uppercase, lowercase, digit,
    symbol; a password is valid when none is violated, and otherwise
    the first violated rule gives the message. *)

Definition contains (cls : N -> bool) (password : JsString.t) : Prop :=
  exists c, In c password /\ cls c = true.

Definition policy : list ((JsString.t -> bool) * string) :=
  [ (fun p => (8 <=? length p)%nat, msgLength);
    (test_class isUppercase, msgUppercase);
    (test_class isLowercase, msgLowercase);
    (test_class isNumber, msgNumber);
    (test_class isSpecial, msgSpecial) ].

Definition firstViolation (password : JsString.t) : option string :=
  snd <$> List.find (fun rule => negb (fst rule password)) policy.

Definition policyVerdict (password : JsString.t) : validation :=
  match firstViolation password with
  | Some msg => Validation false msg
  | None => Validation true msgStrong
  end.

End Login.

(** ** The HTTP gateway: class [API] *)

Module Gateway.

(** A JavaScript exception object, as far as the code looks at it. *)
Record jsError := JsError { name : string; message : string }.

(** [new Error(msg)] *)
Definition Error (msg : string) : jsError := JsError "Error" msg.

(** [s.includes(sub)] *)
Definition includes (sub s : string) : bool :=
  match String.index 0 sub s with Some _ => true | None => false end.

(** The request body a caller passes in [options.body]. *)
Inductive requestBody :=
| JsonBody (members : list (string * string))  (* JSON.stringify({k: v}) *)
| FormData (file : string).                    (* one [file] part *)

Record options := Options {
  method : option string;
  body : option requestBody
}.

Definition noOptions : options := Options None None.

(** The [config] object handed to [fetch]. *)
Record config := Config {
  credentials : string;
  headers : list (string * string);
  cfg_method : option string;
  cfg_body : option requestBody
}.

Definition baseURL := "/api".

Definition isFormData (o : options) : bool :=
  match body o with Some (FormData _) => true | _ => false end.

Definition makeConfig (o : options) : config :=
  {| credentials := "include";
     headers := if isFormData o then []
                else [("Content-Type", "application/json")];
     cfg_method := method o;
     cfg_body := body o |}.

(** The parsed JSON answer, as far as [request] reads it: the truth
    value of [data.auth_error], the member [data.error] when it is a
    string ([None] when it is absent), and the other members, carried
    along. *)
Record jsonData := JsonData {
  auth_error : bool;
  error : option string;
  members : string
}.

(** What the network does with one [fetch]: the promise rejects, or it
    resolves to a response with a status, whose [json()] resolves to
    the parsed body or rejects. *)
Inductive fetchOutcome :=
| FetchRejects (e : jsError)
| Responds (status : N) (json : jsError + jsonData).

(** [response.ok] *)
Definition ok (status : N) : bool := ((200 <=? status) && (status <=? 299))%N.

Inductive effect :=
| Fetch (url : string) (cfg : config)
| ShowAuthModal.

Definition AuthenticationRequired : jsError := Error "Authentication required".

Definition NetworkError : jsError :=
  Error "Network error. Please check your connection and try again.".

(** The truth value of [data.error]. *)
Definition hasError (data : jsonData) : bool :=
  match error data with
  | Some msg => negb (String.eqb msg "")
  | None => false
  end.

(** [new Error(data.error || `HTTP error! status: ${response.status}`)] *)
Definition RequestFailed (status : N) (data : jsonData) : jsError :=
  Error (if hasError data then default "" (error data)
         else "HTTP error! status: " +:+ pretty status).

(** The body of the [try] block after [fetch] has settled: the effects
    performed and the value returned ([inr]) or the exception thrown
    ([inl]).  [authManager] tells whether [window.authManager] is set. *)
Definition tryBlock (authManager : bool) (net : fetchOutcome)
  : list effect * (jsError + jsonData) :=
  match net with
  | FetchRejects e => ([], inl e)
  | Responds status (inl e) => ([], inl e)
  | Responds status (inr data) =>
      if negb (ok status) then
        if (status =? 401)%N && auth_error data then
          (if authManager then [ShowAuthModal] else [],
           inl AuthenticationRequired)
        else ([], inl (RequestFailed status data))
      else ([], inr data)
  end.

(** The [catch] clause. *)
Definition catchClause (error : jsError) : jsError :=
  if String.eqb (name error) "TypeError" && includes "fetch" (message error)
  then NetworkError
  else error.

(** [API.request(endpoint, options)] *)
Definition request (authManager : bool) (endpoint : string) (o : options)
    (net : fetchOutcome) : list effect * (jsError + jsonData) :=
  let url := baseURL +:+ endpoint in
  let config := makeConfig o in
  let '(effects, result) := tryBlock authManager net in
  (Fetch url config :: effects,
   match result with
   | inl error => inl (catchClause error)
   | inr data => inr data
   end).

End Gateway.

(** ** JavaScript values and string helpers *)

Module Js.

(** Text is held as a Rocq [string] whose bytes are the UTF-8 encoding of
    the JavaScript string; where the code counts or classifies the
    characters of a string, the definitions below decode those bytes.

    A JSON value as it arrives in a row of a data table.  [JNum] holds a
    number as the text [String(n)] gives for it ([1], [0.5], [1e+21]), so
    that no rounding of a double is redone here; a member that is absent
    from an object is [None] at lookup. *)
Inductive jsval :=
| JNull
| JBool (b : bool)
| JNum (text : string)
| JStr (s : string)
| JArr (items : list jsval)
| JObj (members : list (string * jsval)).

(** [String(v)], the conversion a template literal applies to [${v}]. *)
Fixpoint toString (v : jsval) : string :=
  match v with
  | JNull => "null"
  | JBool true => "true"
  | JBool false => "false"
  | JNum text => text
  | JStr s => s
  | JArr items =>
      String.concat ","
        (map (fun x => match x with JNull => "" | _ => toString x end) items)
  | JObj _ => "[object Object]"
  end.

(** The members every plain object inherits from [Object.prototype], with
    the text a template literal shows for each: [__proto__] is the
    prototype object itself, the others are built-in functions, printed
    the way V8 prints them. *)
Definition objectPrototype : list string :=
  [ "constructor"; "hasOwnProperty"; "isPrototypeOf";
    "propertyIsEnumerable"; "toLocaleString"; "toString"; "valueOf";
    "__defineGetter__"; "__defineSetter__"; "__lookupGetter__";
    "__lookupSetter__" ].

Definition inherited (key : string) : option string :=
  if String.eqb key "__proto__" then Some "[object Object]"
  else if String.eqb key "constructor"
       then Some "function Object() { [native code] }"
  else if existsb (String.eqb key) objectPrototype
       then Some ("function " +:+ key +:+ "() { [native code] }")
  else None.

(** [${s}] for a member that holds a string or is absent. *)
Definition interpolate (s : option string) : string :=
  match s with Some s => s | None => "undefined" end.

(** The truth value of a member that holds a string or is absent. *)
Definition truthy (s : option string) : bool :=
  match s with Some s => negb (String.eqb s "") | None => false end.

(** [s.length]: the number of UTF-16 code units.  A byte below 128 or a
    lead byte of a two- or three-byte sequence stands for one unit, a
    lead byte of a four-byte sequence for a surrogate pair, and a
    continuation byte for none. *)
Definition unitsOfByte (c : ascii) : nat :=
  let n := nat_of_ascii c in
  if (n <? 128)%nat then 1%nat
  else if (n <? 192)%nat then 0%nat
  else if (n <? 240)%nat then 1%nat
  else 2%nat.

Definition utf16Length (s : string) : nat :=
  list_sum (map unitsOfByte (list_ascii_of_string s)).

(** The white space of ECMAScript (WhiteSpace and LineTerminator), each
    character as the bytes of its UTF-8 encoding: U+0009 to U+000D,
    U+0020, U+00A0, U+1680, U+2000 to U+200A, U+2028, U+2029, U+202F,
    U+205F, U+3000 and U+FEFF. *)
Definition whiteSpace : list (list nat) :=
  ([ [9]; [10]; [11]; [12]; [13]; [32]; [194; 160]; [225; 154; 128] ]
   ++ map (fun n => [226; 128; n]) (seq 128 11)
   ++ [ [226; 128; 168]; [226; 128; 169]; [226; 128; 175];
        [226; 129; 159]; [227; 128; 128]; [239; 187; 191] ])%list%nat.

(** What is left of [l] after the bytes [p], if [l] starts with them. *)
Fixpoint dropPrefix (p : list nat) (l : list ascii) : option (list ascii) :=
  match p, l with
  | [], _ => Some l
  | n :: p', c :: l' =>
      if Nat.eqb n (nat_of_ascii c) then dropPrefix p' l' else None
  | _ :: _, [] => None
  end.

(** What is left of [l] after one white space character, read forwards
    from the codes [codes]. *)
Fixpoint dropOne (codes : list (list nat)) (l : list ascii)
  : option (list ascii) :=
  match codes with
  | [] => None
  | p :: rest =>
      match dropPrefix p l with
      | Some l' => Some l'
      | None => dropOne rest l
      end
  end.

Fixpoint dropAll (fuel : nat) (codes : list (list nat)) (l : list ascii)
  : list ascii :=
  match fuel with
  | O => l
  | S fuel' =>
      match dropOne codes l with
      | Some l' => dropAll fuel' codes l'
      | None => l
      end
  end.

(** Whether the bytes [l] start with a white space character. *)
Definition isWhiteSpace (l : list ascii) : bool :=
  bool_decide (is_Some (dropOne whiteSpace l)).

Definition trimStartBytes (l : list ascii) : list ascii :=
  dropAll (length l) whiteSpace l.

(** From the end: the same on the reversed bytes with reversed codes. *)
Definition trimEndBytes (l : list ascii) : list ascii :=
  rev (dropAll (length l) (map (@rev nat) whiteSpace) (rev l)).

Definition trimStart (s : string) : string :=
  string_of_list_ascii (trimStartBytes (list_ascii_of_string s)).

Definition trimEnd (s : string) : string :=
  string_of_list_ascii (trimEndBytes (list_ascii_of_string s)).

(** [s.trim()] *)
Definition trim (s : string) : string := trimEnd (trimStart s).

(** [s.replace(/\n/g, by)] *)
Fixpoint replaceNewlines (by_ : string) (s : string) : string :=
  match s with
  | String c rest =>
      if Nat.eqb (nat_of_ascii c) 10 then by_ +:+ replaceNewlines by_ rest
      else String c (replaceNewlines by_ rest)
  | EmptyString => EmptyString
  end.

(** The double quote character, for text that contains it. *)
Definition dquote : string := String (ascii_of_nat 34) EmptyString.

End Js.

(** ** Markup as parse trees *)

Module Html.

Inductive node :=
| Text (chars : string)                 (* character data of the template *)
| Raw (markup : string)                 (* an interpolated string, verbatim *)
| Elem (tag : string) (attrs : list (string * string))
       (children : list node).

Abbreviation fragment := (list node).



Definition tagIs (tag : string) (n : node) : bool :=
  match n with Elem t _ _ => String.eqb t tag | _ => false end.


(** A node and everything below it, in document order. *)
Fixpoint subtree (n : node) : list node :=
  match n with
  | Elem _ _ children => n :: flat_map subtree children
  | _ => [n]
  end.

Definition nodes (f : fragment) : list node := flat_map subtree f.

(** [querySelectorAll]: the nodes of [f] that satisfy [p], in document
    order. *)
Definition select (p : node -> bool) (f : fragment) : list node :=
  List.filter p (nodes f).






End Html.

(** ** Query results *)

Module QueryResult.
Import Js.

(** One entry of [visualizations]; a member that the entry does not
    carry is [None]. *)
Record visualization := Visualization {
  viz_title : option string;
  viz_type : option string;
  viz_url : option string;
  viz_html : option string
}.

(** One entry of [data_tables]; a row maps column names to values. *)
Record dataTable := DataTable {
  table_title : option string;
  columns : option (list string);
  data : option (list (gmap string jsval))
}.

Record t := QueryResult {
  query : string;
  timestamp : string;
  datasets_used : option (list string);
  response : option string;
  visualizations : option (list visualization);
  data_tables : option (list dataTable)
}.

(** [result.visualizations && result.visualizations.length > 0], giving
    the entries to iterate over. *)
Definition presentEntries {A} (l : option (list A)) : list A :=
  match l with Some l => l | None => [] end.

End QueryResult.

(** ** The first controller: [PharmaQueryApp] *)

Module PharmaQueryApp.
Import Js Html QueryResult Gateway.

Section Rendering.

(** [new Date(t).toLocaleString()], fixed by the browser's locale. *)
Variable toLocaleString : string -> string.

(** [formatResponseText(text)] *)
Definition formatResponseText (text : option string) : string :=
  if negb (truthy text) then ""
  else replaceNewlines "<br>" (interpolate text).

(** The header block, or the [TypeError] of [datasets_used.join] when
    the member is absent. *)
Definition headerBlock (result : QueryResult.t) : jsError + node :=
  match datasets_used result with
  | None =>
      inl (JsError "TypeError"
             "Cannot read properties of undefined (reading 'join')")
  | Some used =>
      inr (Elem "div" [("class", "result-item")]
             [ Elem "h4" []
                 [Text ("Query: " +:+ dquote); Raw (query result);
                  Text dquote];
               Elem "div" [("class", "result-meta")]
                 [ Elem "span" []
                     [Text "Executed on: ";
                      Raw (toLocaleString (timestamp result))];
                   Elem "span" []
                     [Text "Datasets used: ";
                      Raw (String.concat ", " used)] ] ])
  end.

(** The response block: present when
    [result.response && result.response.trim() !== '']. *)
Definition responseBlock (result : QueryResult.t) : fragment :=
  if truthy (response result)
     && negb (String.eqb (trim (interpolate (response result))) "")
  then [ Elem "div" [("class", "result-item")]
           [ Elem "div" [("class", "response-content")]
               [Raw (formatResponseText (response result))] ] ]
  else [].

(** [`viz-${Date.now()}-${index}`], [now] being the value [Date.now()]
    returns in that iteration. *)
Definition vizId (now : N) (index : nat) : string :=
  "viz-" +:+ pretty now +:+ "-" +:+ pretty index.

(** The array [vizIds] after the first [forEach]; [clock index] is what
    [Date.now()] returns in the iteration for [index]. *)
Definition vizIds (clock : nat -> N) (result : QueryResult.t)
  : list string :=
  imap (fun index _ => vizId (clock index) index)
       (presentEntries (visualizations result)).

Definition vizLoading : fragment :=
  [ Elem "div" [("class", "viz-loading")]
      [ Elem "i" [("class", "fas fa-spinner fa-spin")] [];
        Elem "span" [] [Text "Rendering chart..."] ] ].

Definition vizBlock (viz : visualization) (vizId : string) : node :=
  Elem "div" [("class", "result-item")]
    [ Elem "h4" []
        [Elem "i" [("class", "fas fa-chart-bar")] []; Text " ";
         Raw (interpolate (viz_title viz))];
      Elem "div" [("class", "visualization"); ("id", vizId)] vizLoading ].

(** The page as far as rendering touches it: the children of the
    element [resultsContent], and the callbacks handed to
    [setTimeout] that have not run yet, oldest first. *)
Record page := Page {
  resultsContent : fragment;
  timers : list (visualization * string)
}.

(** [renderVisualization(viz, containerId)]: schedules the callback. *)
Definition renderVisualization (viz : visualization)
    (containerId : string) (p : page) : page :=
  Page (resultsContent p) (timers p ++ [(viz, containerId)]).





(** [renderQueryResults(result)] *)
Definition renderQueryResults (clock : nat -> N) (result : QueryResult.t)
    (p : page) : jsError + page :=
  match headerBlock result with
  | inl e => inl e
  | inr header =>
      let vizs := presentEntries (visualizations result) in
      let ids := vizIds clock result in
      let html :=
        header :: responseBlock result
          ++ zip_with vizBlock vizs ids in
      inr (fold_left (fun p t => renderVisualization (fst t) (snd t) p)
                     (zip vizs ids)
                     (Page html (timers p)))
  end.

End Rendering.

End PharmaQueryApp.

(** ** The second controller: [AMINAApp], rendering *)

Module AMINAAppRender.
Import Js Html QueryResult Gateway.

(** What [row[col]] yields on a row, a plain object: the member of its
    own, else the member inherited from [Object.prototype], else
    [undefined]. *)
Inductive cellValue :=
| Own (v : jsval)
| Inherited (text : string)
| Undefined.

Definition get (row : gmap string jsval) (col : string) : cellValue :=
  match row !! col with
  | Some v => Own v
  | None =>
      match inherited col with
      | Some text => Inherited text
      | None => Undefined
      end
  end.

(** [value === null || value === undefined ? '' : value], then the
    conversion of the template literal. *)
Definition displayValue (value : cellValue) : string :=
  match value with
  | Undefined => ""
  | Own JNull => ""
  | Own v => toString v
  | Inherited text => text
  end.

(** One [<td>] of the inner [forEach]. *)
Definition renderCell (row : gmap string jsval) (col : string) : node :=
  let value := get row col in
  Elem "td" [] [Raw (displayValue value)].

(** One [<tr>] of the outer [forEach]. *)
Definition renderRow (columns : list string) (row : gmap string jsval)
  : node :=
  Elem "tr" [] (map (renderCell row) columns).

Definition noData : fragment :=
  [Elem "p" [("class", "no-data")] [Text "No data to display"]].

(** [renderDataTable(table)] *)
Definition renderDataTable (table : dataTable) : fragment :=
  match data table, columns table with
  | None, _ | _, None | Some [], _ => noData
  | Some rows, Some cols =>
      [ Elem "div" [("class", "table-wrapper")]
          [ Elem "table" [("class", "data-table")]
              [ Elem "thead" []
                  [Elem "tr" []
                     (map (fun col => Elem "th" [] [Raw col]) cols)];
                Elem "tbody" [] (map (renderRow cols) rows) ] ] ]
  end.

Section Rendering.

Variable toLocaleString : string -> string.

Definition imgStyle :=
  "max-width: 100%; height: auto; border-radius: 8px; box-shadow: 0 2px 8px rgba(0,0,0,0.1);".

Definition imgOnload := "console.log('Chart loaded successfully')".

Definition imgOnerror :=
  "console.error('Failed to load chart:', this.src); this.style.display='none'; this.nextElementSibling.style.display='block';".

Definition vizBlock (viz : visualization) : node :=
  Elem "div" [("class", "result-item")]
    [ Elem "h4" []
        [Elem "i" [("class", "fas fa-chart-bar")] []; Text " ";
         Raw (interpolate (viz_title viz))];
      Elem "div" [("class", "visualization")]
        [ Elem "img"
            [("src", interpolate (viz_url viz));
             ("alt", interpolate (viz_title viz));
             ("style", imgStyle);
             ("onload", imgOnload);
             ("onerror", imgOnerror)] [];
          Elem "div"
            [("style",
              "display: none; text-align: center; color: #666; padding: 20px;")]
            [ Elem "i" [("class", "fas fa-exclamation-triangle")] [];
              Elem "p" [] [Text "Failed to load chart"] ] ] ].

Definition tableBlock (table : dataTable) : node :=
  Elem "div" [("class", "result-item")]
    [ Elem "h4" []
        [Elem "i" [("class", "fas fa-table")] []; Text " ";
         Raw (interpolate (table_title table))];
      Elem "div" [("class", "data-table-container")]
        (renderDataTable table) ].

(** [renderQueryResults(result)]: the fragment assigned to
    [content.innerHTML], or the exception thrown before that. *)
Definition renderQueryResults (result : QueryResult.t)
  : jsError + fragment :=
  match PharmaQueryApp.headerBlock toLocaleString result with
  | inl e => inl e
  | inr header =>
      inr (header :: PharmaQueryApp.responseBlock result
             ++ map vizBlock (presentEntries (visualizations result))
             ++ map tableBlock (presentEntries (data_tables result)))
  end.

End Rendering.

End AMINAAppRender.

(** ** Asynchronous methods and the calls they await *)

Module Async.
Import Gateway QueryResult.

(** A dataset as the list endpoints return it. *)
Record dataset := Dataset {
  id : string;
  name : string;
  rows : nat;
  columns : nat;
  upload_date : string;
  size_bytes : nat;
  uploaded_by : option string
}.

(** The methods of [API] the controller awaits, indexed by what the
    answer carries when [response.success] holds. *)
Module API.
Inductive call : Type -> Type :=
| getSharedDatasets : call (list dataset)
| getAdminSharedDatasets : call (list dataset)
| uploadDataset (file : string) : call unit
| uploadSharedDataset (file : string) : call unit
| renameSharedDataset (datasetId newName : string) : call unit
| executeQuery (query : string) : call QueryResult.t.
End API.
Abbreviation apiCall := API.call.

(** The endpoint and options each method passes to [API.request]. *)
Definition describe {A} (call : apiCall A) : string * options :=
  match call with
  | API.getSharedDatasets => ("/shared-datasets", noOptions)
  | API.getAdminSharedDatasets => ("/admin/shared-datasets", noOptions)
  | API.uploadDataset file =>
      ("/upload", Options (Some "POST") (Some (FormData file)))
  | API.uploadSharedDataset file =>
      ("/admin/shared-datasets/upload",
       Options (Some "POST") (Some (FormData file)))
  | API.renameSharedDataset datasetId newName =>
      ("/admin/shared-datasets/" +:+ datasetId +:+ "/rename",
       Options (Some "PUT") (Some (JsonBody [("name", newName)])))
  | API.executeQuery query =>
      ("/query",
       Options (Some "POST") (Some (JsonBody [("query", query)])))
  end.

(** What [await API.m(...)] yields: the gateway throws, or the answer
    has a falsy [success] (with its [error] member, if any), or it has a
    true [success] and carries the value. *)
Inductive reply (A : Type) :=
| Throws (e : jsError)
| Declines (error : option string)
| Succeeds (value : A).
Arguments Throws {A} e.
Arguments Declines {A} error.
Arguments Succeeds {A} value.

(** [new Error(response.error)]: the message is empty when the member
    is absent. *)
Definition declinedError (error : option string) : jsError :=
  Error (match error with Some msg => msg | None => "" end).

(** An [async] method: it finishes with a value, or awaits a call and
    goes on with the reply. *)
Inductive async (S : Type) : Type :=
| Return (s : S)
| Await {A : Type} (call : apiCall A) (k : reply A -> async S).
Arguments Return {S} s.
Arguments Await {S A} call k.

Fixpoint bind {S T} (m : async S) (f : S -> async T) : async T :=
  match m with
  | Return s => f s
  | Await call k => Await call (fun r => bind (k r) f)
  end.

(** [for (const x of xs) { await body(x) }] *)
Fixpoint forEachAwait {X S} (body : X -> S -> async S) (xs : list X)
    (s : S) : async S :=
  match xs with
  | [] => Return s
  | x :: rest => bind (body x s) (forEachAwait body rest)
  end.

(** The network and the server behind it: any state [net], answering
    each call and moving to a next state. *)
Definition responder (net : Type) : Type :=
  forall A, apiCall A -> net -> net * reply A.

(** A request as it appears in the trace of a run. *)
Definition request : Type := string * options.

(** Running a method against a network: the final network state, the
    requests issued in order, and the method's result. *)
Fixpoint run {net S} (respond : responder net) (m : async S) (n : net)
  : net * list request * S :=
  match m with
  | Return s => (n, [], s)
  | Await call k =>
      let '(n1, r) := respond _ call n in
      let '(n2, trace, s) := run respond (k r) n1 in
      (n2, describe call :: trace, s)
  end.

Definition finalNet {net S} (x : net * list request * S) : net := x.1.1.
Definition trace {net S} (x : net * list request * S) : list request :=
  x.1.2.
Definition result {net S} (x : net * list request * S) : S := x.2.

End Async.

(** ** The second controller: [AMINAApp], state and methods *)

Module AMINAApp.
Import Js Html QueryResult Gateway Async.

Record user := User { user_name : string; is_admin : bool }.

(** What the container [datasetsList] shows.  The markup of one item is
    reduced to its [data-id] and the text of its heading. *)
Inductive datasetsView :=
| Untouched
| LoadingState (message : string)
| ErrorState (message : string)
| EmptyState (message : string)
| DatasetItems (items : list (string * string)).

(** The controller together with the part of the page its methods
    write to.  [toasts] are the notices passed to [UI.showToast], oldest
    first.  The interval that animates the progress bar and the
    timeouts that hide it later touch only the progress elements and
    are not represented. *)
Record app := App {
  currentUser : option user;
  datasets : list dataset;
  currentQuery : option QueryResult.t;
  queryInput : string;
  resultsContent : fragment;
  queryResultsDisplay : string;
  executeBtnDisabled : bool;
  executeBtnLabel : fragment;
  datasetsList : datasetsView;
  uploadProgressDisplay : string;
  uploadStatus : string;
  progressFillWidth : string;
  fileInput : string;
  toasts : list (string * string)
}.

Definition showToast (message type : string) (a : app) : app :=
  App (currentUser a) (datasets a) (currentQuery a) (queryInput a)
      (resultsContent a) (queryResultsDisplay a) (executeBtnDisabled a)
      (executeBtnLabel a) (datasetsList a) (uploadProgressDisplay a)
      (uploadStatus a) (progressFillWidth a) (fileInput a)
      (toasts a ++ [(message, type)]).

Definition setDatasets (ds : list dataset) (a : app) : app :=
  App (currentUser a) ds (currentQuery a) (queryInput a)
      (resultsContent a) (queryResultsDisplay a) (executeBtnDisabled a)
      (executeBtnLabel a) (datasetsList a) (uploadProgressDisplay a)
      (uploadStatus a) (progressFillWidth a) (fileInput a) (toasts a).

Definition setCurrentQuery (q : option QueryResult.t) (a : app) : app :=
  App (currentUser a) (datasets a) q (queryInput a)
      (resultsContent a) (queryResultsDisplay a) (executeBtnDisabled a)
      (executeBtnLabel a) (datasetsList a) (uploadProgressDisplay a)
      (uploadStatus a) (progressFillWidth a) (fileInput a) (toasts a).

Definition setResultsContent (content : fragment) (a : app) : app :=
  App (currentUser a) (datasets a) (currentQuery a) (queryInput a)
      content (queryResultsDisplay a) (executeBtnDisabled a)
      (executeBtnLabel a) (datasetsList a) (uploadProgressDisplay a)
      (uploadStatus a) (progressFillWidth a) (fileInput a) (toasts a).

Definition setResultsDisplay (display : string) (a : app) : app :=
  App (currentUser a) (datasets a) (currentQuery a) (queryInput a)
      (resultsContent a) display (executeBtnDisabled a)
      (executeBtnLabel a) (datasetsList a) (uploadProgressDisplay a)
      (uploadStatus a) (progressFillWidth a) (fileInput a) (toasts a).

Definition setExecuteBtn (disabled : bool) (label : fragment) (a : app)
  : app :=
  App (currentUser a) (datasets a) (currentQuery a) (queryInput a)
      (resultsContent a) (queryResultsDisplay a) disabled label
      (datasetsList a) (uploadProgressDisplay a)
      (uploadStatus a) (progressFillWidth a) (fileInput a) (toasts a).

Definition setDatasetsList (v : datasetsView) (a : app) : app :=
  App (currentUser a) (datasets a) (currentQuery a) (queryInput a)
      (resultsContent a) (queryResultsDisplay a) (executeBtnDisabled a)
      (executeBtnLabel a) v (uploadProgressDisplay a)
      (uploadStatus a) (progressFillWidth a) (fileInput a) (toasts a).

Definition setProgress (display status width : string) (a : app) : app :=
  App (currentUser a) (datasets a) (currentQuery a) (queryInput a)
      (resultsContent a) (queryResultsDisplay a) (executeBtnDisabled a)
      (executeBtnLabel a) (datasetsList a) display status width
      (fileInput a) (toasts a).

Definition setFileInput (value : string) (a : app) : app :=
  App (currentUser a) (datasets a) (currentQuery a) (queryInput a)
      (resultsContent a) (queryResultsDisplay a) (executeBtnDisabled a)
      (executeBtnLabel a) (datasetsList a) (uploadProgressDisplay a)
      (uploadStatus a) (progressFillWidth a) value (toasts a).

(** [this.currentUser?.is_admin] as a condition. *)
Definition isAdmin (a : app) : bool :=
  match currentUser a with Some u => is_admin u | None => false end.

(** [this.datasets.find(d => d.id === datasetId)] *)
Definition findDataset (datasetId : string) (a : app) : option dataset :=
  List.find (fun d => String.eqb (id d) datasetId) (datasets a).

(** [renderSharedDatasetsList()] *)
Definition renderSharedDatasetsList (a : app) : app :=
  match datasets a with
  | [] =>
      setDatasetsList
        (EmptyState
           (if isAdmin a
            then "No shared datasets uploaded yet. Upload the first dataset above."
            else "No shared datasets available. Contact an administrator to upload datasets."))
        a
  | ds => setDatasetsList (DatasetItems (map (fun d => (id d, name d)) ds)) a
  end.

(** [loadSharedDatasets()].  Of the three views refreshed on success
    only [datasetsList] is represented; [updateQueryDatasetsList] and
    [updateDashboard] write the same [datasets] to other containers. *)
Definition loadSharedDatasets (a : app) : async app :=
  let a := setDatasetsList (LoadingState "Loading...") a in
  let onError (a : app) :=
    showToast "Failed to load datasets" "error"
      (setDatasetsList (ErrorState "Failed to load datasets") a) in
  let continue (response : reply (list dataset)) :=
    match response with
    | Succeeds ds => Return (renderSharedDatasetsList (setDatasets ds a))
    | Declines _ | Throws _ => Return (onError a)
    end in
  if isAdmin a then Await API.getAdminSharedDatasets continue
  else Await API.getSharedDatasets continue.

(** [uploadFile(file)] *)
Definition uploadFile (file : string) (a : app) : async app :=
  let a := setProgress "block" ("Uploading " +:+ file +:+ "...") "0%" a in
  let onError (error : jsError) (a : app) :=
    showToast ("Failed to upload " +:+ file +:+ ": " +:+ message error)
      "error"
      (setProgress (uploadProgressDisplay a) "Upload failed"
         (progressFillWidth a) a) in
  let continue (response : reply unit) :=
    match response with
    | Throws error => Return (onError error a)
    | Declines error =>
        let a := setProgress (uploadProgressDisplay a) (uploadStatus a)
                   "100%" a in
        Return (onError (declinedError error) a)
    | Succeeds _ =>
        let a := setProgress (uploadProgressDisplay a) "Upload successful!"
                   "100%" a in
        let a := showToast ("Successfully uploaded " +:+ file) "success" a in
        loadSharedDatasets a
    end in
  if isAdmin a then Await (API.uploadSharedDataset file) continue
  else Await (API.uploadDataset file) continue.

(** [handleFileSelect(event)], [files] being the names of the files of
    the event in order. *)
Definition handleFileSelect (files : list string) (a : app) : async app :=
  bind (forEachAwait uploadFile files a)
       (fun a => Return (setFileInput "" a)).

(** [renameSharedDataset(datasetId)], [answer] being what [prompt]
    returns: [None] when the dialog is cancelled. *)
Definition renameSharedDataset (datasetId : string)
    (answer : option string) (a : app) : async app :=
  if negb (isAdmin a) then Return a
  else
    match findDataset datasetId a with
    | None => Return a
    | Some dataset =>
        let newName := interpolate answer in
        if negb (truthy answer) || String.eqb (trim newName) ""
           || String.eqb newName (name dataset)
        then Return a
        else
          let onError (a : app) :=
            showToast "Failed to rename dataset" "error" a in
          Await (API.renameSharedDataset datasetId (trim newName))
            (fun response =>
               match response with
               | Succeeds _ =>
                   loadSharedDatasets
                     (showToast "Dataset renamed successfully" "success" a)
               | Declines _ | Throws _ => Return (onError a)
               end)
    end.

(** [renameDataset(datasetId)]: reading [dataset.name] throws when the
    dataset is not in the cache, which rejects the method's promise. *)
Definition renameDataset (datasetId : string) (answer : option string)
    (a : app) : async (jsError + app) :=
  match findDataset datasetId a with
  | None =>
      Return (inl (JsError "TypeError"
                     "Cannot read properties of undefined (reading 'name')"))
  | Some dataset =>
      let newName := interpolate answer in
      if truthy answer && negb (String.eqb newName (name dataset))
      then
        let onError (a : app) :=
          showToast "Failed to rename dataset" "error" a in
        Await (API.renameSharedDataset datasetId newName)
          (fun response =>
             match response with
             | Succeeds _ =>
                 bind (loadSharedDatasets
                         (showToast "Dataset renamed successfully"
                            "success" a))
                      (fun a => Return (inr a))
             | Declines _ | Throws _ => Return (inr (onError a))
             end)
      else Return (inr a)
  end.

Section Query.

Variable toLocaleString : string -> string.

Definition labelExecuting : fragment :=
  [Elem "i" [("class", "fas fa-spinner fa-spin")] [];
   Text " Executing..."].

Definition labelExecute : fragment :=
  [Elem "i" [("class", "fas fa-search")] []; Text " Execute Query"].

(** [executeQuery()] *)
Definition executeQuery (a : app) : async app :=
  let queryText := trim (queryInput a) in
  if String.eqb queryText "" then
    Return (showToast "Please enter a query" "warning" a)
  else
    match datasets a with
    | [] =>
        Return (showToast "No datasets available for querying"
                  "warning" a)
    | _ =>
        let a := setExecuteBtn true labelExecuting a in
        let onError (error : jsError) (a : app) :=
          setResultsDisplay "none"
            (showToast ("Query failed: " +:+ message error) "error" a) in
        let finally (a : app) := setExecuteBtn false labelExecute a in
        Await (API.executeQuery queryText)
          (fun response =>
             Return
               (finally
                  match response with
                  | Succeeds result =>
                      let a := setCurrentQuery (Some result) a in
                      match AMINAAppRender.renderQueryResults
                              toLocaleString result with
                      | inr content =>
                          showToast "Query executed successfully"
                            "success"
                            (setResultsDisplay "block"
                               (setResultsContent content a))
                      | inl error => onError error a
                      end
                  | Declines error => onError (declinedError error) a
                  | Throws error => onError error a
                  end))
    end.

End Query.

End AMINAApp.

(** ** The server's dataset store *)

Module Server.
Import Gateway Async.

(** Modelled from the spec: the route handlers of the server are not
    among the client's sources.  The store of shared datasets; the list
    endpoints answer with its datasets, and the rename endpoint sets
    the [name] of the dataset with the given id to the name in the
    request body and answers success.  Uploads and queries are outside
    this model and are declined. *)
Definition store := list dataset.

(** Modelled from the spec: rename mutates the [name] field only. *)
Definition setName (newName : string) (d : dataset) : dataset :=
  Dataset (id d) newName (rows d) (columns d) (upload_date d)
          (size_bytes d) (uploaded_by d).

(** Modelled from the spec: the effect of
    [PUT /admin/shared-datasets/{id}/rename] on the store. *)
Definition rename (datasetId newName : string) (s : store) : store :=
  map (fun d => if String.eqb (id d) datasetId then setName newName d
                else d) s.

(** Modelled from the spec: the server as a responder. *)
Definition serve : responder store :=
  fun A call =>
    match call in API.call A return store -> store * reply A with
    | API.getSharedDatasets | API.getAdminSharedDatasets =>
        fun s => (s, Succeeds s)
    | API.renameSharedDataset datasetId newName =>
        fun s => (rename datasetId newName s, Succeeds tt)
    | API.uploadDataset _ | API.uploadSharedDataset _ =>
        fun s => (s, Declines None)
    | API.executeQuery _ => fun s => (s, Declines None)
    end.

End Server.

(** ** The utility class [UI]: form validation *)

Module UI.
Import Js.

(** A form field as [validateForm] sees it: its value, whether its
    class list holds [error], and the text of the [.field-error]
    element of its parent, if there is one.  Every field is taken to
    have a parent of its own. *)
Record field := Field {
  value : string;
  errorClass : bool;
  fieldError : option string
}.

(** A form: its fields by [name]; the document: its forms by id. *)
Abbreviation form := (gmap string field).
Abbreviation document := (gmap string form).

(** What a [custom] validator returns: [true], a falsy value, or a
    message. *)
Inductive customResult :=
| CustomTrue
| CustomFalsy
| CustomMessage (msg : string).

(** One entry of [rules]; [None] is an option that is not given. *)
Record fieldRules := FieldRules {
  required : bool;
  minLength : option nat;
  maxLength : option nat;
  email : bool;
  custom : option (string -> customResult)
}.

(** What [validateForm] returns: the bare [false], or the object
    [{ isValid, errors }] with the members [errors] has of its own; or,
    for rule keys outside the ones represented, an outcome left open. *)
Inductive validation :=
| ReturnsFalse
| Returns (isValid : bool) (errors : gmap string string)
| SelectorDependent.

(** [showFieldError(field, message)] *)
Definition showFieldError (f : field) (message : string) : field :=
  Field (value f) true (Some message).

(** [clearFieldError(field)] *)
Definition clearFieldError (f : field) : field :=
  Field (value f) false None.

(** Whether a white space character occurs in the bytes [l].  In UTF-8
    the bytes of one character never occur inside or across others, so
    an occurrence of the bytes is an occurrence of the character. *)
Fixpoint hasWhiteSpace (l : list ascii) : bool :=
  isWhiteSpace l
  || match l with
     | [] => false
     | _ :: rest => hasWhiteSpace rest
     end.

Definition isAt (c : ascii) : bool := Ascii.eqb c "@".

(** A run of characters the classes [[^\s@]] of the e-mail pattern
    accept. *)
Definition emailPart (l : list ascii) : bool :=
  negb (hasWhiteSpace l) && negb (existsb isAt l).

Definition isDot (c : ascii) : bool := Ascii.eqb c ".".

(** The part before the first [@] and the part after it. *)
Fixpoint splitAt (s : list ascii) : option (list ascii * list ascii) :=
  match s with
  | [] => None
  | c :: rest =>
      if Ascii.eqb c "@" then Some ([], rest)
      else match splitAt rest with
           | Some (before, after) => Some (c :: before, after)
           | None => None
           end
  end.

(** [isValidEmail(email)]: the pattern asks for one [@], a non-empty
    part before it, and after it a part with a full stop that is
    neither its first nor its last character, all without white
    space.  The full stop is one byte, so it is looked for among the
    bytes between the first and the last. *)
Definition isValidEmail (email : string) : bool :=
  match splitAt (list_ascii_of_string email) with
  | None => false
  | Some (before, after) =>
      negb (Nat.eqb (length before) 0)
      && emailPart before
      && emailPart after
      && existsb isDot (removelast (tl after))
  end.

(** The truth value of a numeric option. *)
Definition given (n : option nat) : bool :=
  match n with Some (S _) => true | _ => false end.

Definition limit (n : option nat) : nat := default 0 n.

(** [errors[fieldName] = message] on the plain object [errors]: a string
    assigned to [__proto__] goes to the inherited setter, which stores
    nothing. *)
Definition setError (fieldName message : string)
    (errors : gmap string string) : gmap string string :=
  if String.eqb fieldName "__proto__" then errors
  else <[fieldName := message]> errors.

(** [errors[fieldName]] read as text: the member of its own, else the one
    inherited from [Object.prototype]. *)
Definition getError (errors : gmap string string) (fieldName : string)
  : option string :=
  match errors !! fieldName with
  | Some message => Some message
  | None => inherited fieldName
  end.

(** The body of the [forEach] over [Object.keys(rules)], for a field
    that exists: the field, [isValid] and [errors] after it. *)
Definition validateField (fieldName : string) (fieldRules : fieldRules)
    (f : field) (isValid : bool) (errors : gmap string string)
  : field * bool * gmap string string :=
  let f := clearFieldError f in
  let '(isValid, errors) :=
    if required fieldRules && String.eqb (trim (value f)) ""
    then (false, setError fieldName "This field is required" errors)
    else (isValid, errors) in
  let '(isValid, errors) :=
    if given (minLength fieldRules)
       && (utf16Length (value f) <? limit (minLength fieldRules))%nat
    then (false,
          setError fieldName
            ("Minimum length is "
             +:+ pretty (limit (minLength fieldRules))
             +:+ " characters") errors)
    else (isValid, errors) in
  let '(isValid, errors) :=
    if given (maxLength fieldRules)
       && (limit (maxLength fieldRules) <? utf16Length (value f))%nat
    then (false,
          setError fieldName
            ("Maximum length is "
             +:+ pretty (limit (maxLength fieldRules))
             +:+ " characters") errors)
    else (isValid, errors) in
  let '(isValid, errors) :=
    if email fieldRules && negb (String.eqb (value f) "")
       && negb (isValidEmail (value f))
    then (false,
          setError fieldName "Please enter a valid email address" errors)
    else (isValid, errors) in
  let '(isValid, errors) :=
    match custom fieldRules with
    | Some check =>
        match check (value f) with
        | CustomTrue => (isValid, errors)
        | CustomFalsy => (false, setError fieldName "Invalid value" errors)
        | CustomMessage msg =>
            (false,
             setError fieldName
               (if String.eqb msg "" then "Invalid value" else msg) errors)
        end
    | None => (isValid, errors)
    end in
  let f :=
    match getError errors fieldName with
    | Some msg => if String.eqb msg "" then f else showFieldError f msg
    | None => f
    end in
  (f, isValid, errors).

(** Whether the selector [[name=" fieldName "]] is the attribute
    selector for exactly the name [fieldName]: the key holds no double
    quote, backslash, line break or null character. *)
Definition plainKey (fieldName : string) : bool :=
  forallb (fun c => negb (existsb (Nat.eqb (nat_of_ascii c))
                            [0; 10; 12; 13; 34; 92]%nat))
          (list_ascii_of_string fieldName).

(** [validateForm(formId, rules)]; [rules] lists the entries in the
    order of [Object.keys].  With a key that is not plain the selector
    is read by the CSS parser in a way that depends on the text of the
    key (an escape, a list of selectors, a syntax error that is thrown);
    that parser is not represented here, and the outcome is left open as
    [SelectorDependent], with nothing said about the document. *)
Definition validateForm (doc : document) (formId : string)
    (rules : list (string * fieldRules)) : document * validation :=
  match doc !! formId with
  | None => (doc, ReturnsFalse)
  | Some form =>
      if negb (forallb plainKey (map fst rules))
      then (doc, SelectorDependent)
      else
      let '(form, isValid, errors) :=
        fold_left
          (fun '(form, isValid, errors) '(fieldName, fieldRules) =>
             match form !! fieldName with
             | None => (form, isValid, errors)
             | Some f =>
                 let '(f, isValid, errors) :=
                   validateField fieldName fieldRules f isValid errors in
                 (<[fieldName := f]> form, isValid, errors)
             end)
          rules (form, true, ∅) in
      (<[formId := form]> doc, Returns isValid errors)
  end.

End UI.

(** ** The gateway: export, and the earlier gateway *)

Module GatewayExport.
Import Gateway.

(** What the network does with the [fetch] of an export: the promise
    rejects, or it resolves to a response with a status, whose [json()]
    and [blob()] each resolve or reject. *)
Inductive exportOutcome :=
| ExportRejects (e : jsError)
| ExportResponds (status : N) (json : jsError + jsonData)
                 (blob : jsError + string).

Inductive exportEffect :=
| Plain (e : effect)
| SaveAs (fileName : string) (content : string).

(** [new Error(errorData.error || 'Export failed')] *)
Definition ExportFailed (errorData : jsonData) : jsError :=
  Error (if hasError errorData then default "" (error errorData)
         else "Export failed").

(** [API.exportResults(resultId, format)] of the AMMINA gateway.  The
    [catch] clause logs the error and throws it again. *)
Definition exportResults (authManager : bool) (resultId format : string)
    (net : exportOutcome) : list exportEffect * (jsError + unit) :=
  let url := baseURL +:+ "/export/" +:+ resultId +:+ "?format=" +:+ format in
  let fetched := Plain (Fetch url (Config "include" [] None None)) in
  match net with
  | ExportRejects e => ([fetched], inl e)
  | ExportResponds status json blob =>
      if negb (ok status) then
        if (status =? 401)%N then
          (fetched :: (if authManager then [Plain ShowAuthModal] else []),
           inl AuthenticationRequired)
        else
          match json with
          | inl e => ([fetched], inl e)
          | inr errorData => ([fetched], inl (ExportFailed errorData))
          end
      else
        match blob with
        | inl e => ([fetched], inl e)
        | inr content =>
            ([fetched;
              SaveAs ("query_results_" +:+ resultId +:+ "." +:+ format)
                     content],
             inr tt)
        end
  end.

(** [API.healthCheck()] *)
Definition healthCheck (net : fetchOutcome) : bool :=
  match net with
  | FetchRejects _ => false
  | Responds status _ => ok status
  end.

End GatewayExport.

Module LegacyGateway.
Import Gateway.

(** The [config] of the earlier gateway has no [credentials] member. *)
Record config := Config {
  headers : list (string * string);
  cfg_method : option string;
  cfg_body : option requestBody
}.

Definition makeConfig (o : options) : config :=
  {| headers := if isFormData o then []
                else [("Content-Type", "application/json")];
     cfg_method := method o;
     cfg_body := body o |}.

(** [API.request(endpoint, options)] of the PharmaQuery gateway: the
    value returned ([inr]) or the exception thrown ([inl]). *)
Definition request (endpoint : string) (o : options) (net : fetchOutcome)
  : (string * config) * (jsError + jsonData) :=
  let url := baseURL +:+ endpoint in
  let config := makeConfig o in
  (url, config,
   match net with
   | FetchRejects e => inl (catchClause e)
   | Responds status (inl e) => inl (catchClause e)
   | Responds status (inr data) =>
       if negb (ok status) then inl (catchClause (RequestFailed status data))
       else inr data
   end).

End LegacyGateway.

(** ** The login page: views and submissions of [LoginManager] *)

Module LoginFlow.
Import Gateway Login.

(** A form element: the current values of its fields and the values
    [reset()] restores. *)
Record formElement := FormElement {
  values : gmap string string;
  defaults : gmap string string
}.

(** [form.reset()] *)
Definition reset (f : formElement) : formElement :=
  FormElement (defaults f) (defaults f).

(** The login page as far as [LoginManager] touches it.  An element the
    page does not have is [None]; for the three containers the value is
    [style.display], for the title and subtitle it is [textContent].
    [redirects] are the locations handed to [setTimeout] for a later
    change of [window.location.href]. *)
Record page := Page {
  loginForm : option string;
  registerForm : option string;
  adminRegisterForm : option string;
  loginTitle : option string;
  loginSubtitle : option string;
  loginFormElement : option formElement;
  registerFormElement : option formElement;
  adminRegisterFormElement : option formElement;
  toasts : list (string * string);
  redirects : list string
}.

(** [if (el) el.prop = v] *)
Definition assign {A} (v : A) (el : option A) : option A :=
  match el with Some _ => Some v | None => None end.

(** [showLoginForm()] *)
Definition showLoginForm (p : page) : page :=
  Page (assign "block" (loginForm p)) (assign "none" (registerForm p))
       (assign "none" (adminRegisterForm p))
       (assign "Welcome Back" (loginTitle p))
       (assign "Please sign in to continue" (loginSubtitle p))
       (reset <$> loginFormElement p) (registerFormElement p)
       (adminRegisterFormElement p) (toasts p) (redirects p).

(** [showRegisterForm()] *)
Definition showRegisterForm (p : page) : page :=
  Page (assign "none" (loginForm p)) (assign "block" (registerForm p))
       (assign "none" (adminRegisterForm p))
       (assign "Join AMMINA" (loginTitle p))
       (assign "Create your account to get started" (loginSubtitle p))
       (loginFormElement p) (reset <$> registerFormElement p)
       (adminRegisterFormElement p) (toasts p) (redirects p).

(** [showAdminRegisterForm()] *)
Definition showAdminRegisterForm (p : page) : page :=
  Page (assign "none" (loginForm p)) (assign "none" (registerForm p))
       (assign "block" (adminRegisterForm p))
       (assign "Admin Registration" (loginTitle p))
       (assign "Create an admin account with special privileges"
               (loginSubtitle p))
       (loginFormElement p) (registerFormElement p)
       (reset <$> adminRegisterFormElement p) (toasts p) (redirects p).

(** The navigation links wired up by [setupEventListeners]. *)
Inductive navigation := ToLogin | ToRegister | ToAdminRegister.

#[global] Instance navigation_eq_dec : EqDecision navigation.
Proof. solve_decision. Defined.

Definition navigate (p : page) (nav : navigation) : page :=
  match nav with
  | ToLogin => showLoginForm p
  | ToRegister => showRegisterForm p
  | ToAdminRegister => showAdminRegisterForm p
  end.

(** [showToast(message, type)] *)
Definition showToast (message type : string) (p : page) : page :=
  Page (loginForm p) (registerForm p) (adminRegisterForm p) (loginTitle p)
       (loginSubtitle p) (loginFormElement p) (registerFormElement p)
       (adminRegisterFormElement p) (toasts p ++ [(message, type)])
       (redirects p).

(** [setTimeout(() => { window.location.href = url }, 1000)] *)
Definition redirectLater (url : string) (p : page) : page :=
  Page (loginForm p) (registerForm p) (adminRegisterForm p) (loginTitle p)
       (loginSubtitle p) (loginFormElement p) (registerFormElement p)
       (adminRegisterFormElement p) (toasts p) (redirects p ++ [url]).

(** The fields [FormData] yields for a submitted form; [None] is the
    [null] that [get] returns for a field the form does not have. *)
Record formData := Submitted {
  fd_name : option string;
  fd_email : option string;
  fd_password : option JsString.t;
  fd_confirmPassword : option JsString.t;
  fd_adminKey : option string
}.

(** The requests of the three handlers, with the members of the JSON
    body. *)
Inductive authRequest :=
| LoginRequest (email : option string) (password : option JsString.t)
| RegisterRequest (name email : option string) (password : JsString.t)
| AdminRegisterRequest (name email : option string) (password : JsString.t)
                       (admin_key : string).

Definition url (r : authRequest) : string :=
  match r with
  | LoginRequest _ _ => "/api/auth/login"
  | RegisterRequest _ _ _ => "/api/auth/register"
  | AdminRegisterRequest _ _ _ _ => "/api/auth/register-admin"
  end.

(** The answer of the authentication endpoints, as far as it is read. *)
Record authData := AuthData { success : bool; auth_message : option string }.

Inductive authOutcome :=
| AuthRejects (e : jsError)
| AuthResponds (json : jsError + authData).

(** [data.error || fallback] *)
Definition errorOr (fallback : string) (data : authData) : string :=
  match auth_message data with
  | Some msg => if String.eqb msg "" then fallback else msg
  | None => fallback
  end.

(** The body of the [try] statement after the [fetch], which the three
    handlers share up to the two messages. *)
Definition settle (welcome fallback : string) (net : authOutcome) (p : page)
  : page :=
  match net with
  | AuthResponds (inr data) =>
      if success data
      then redirectLater "/app" (showToast welcome "success" p)
      else showToast (errorOr fallback data) "error" p
  | AuthResponds (inl _) | AuthRejects _ =>
      showToast "Network error. Please try again." "error" p
  end.

(** What a handler does: the requests it sent, and the page afterwards
    or the exception that escaped it. *)
Definition handled : Type := list authRequest * (jsError + page).

(** [handleLogin(e)] *)
Definition handleLogin (fd : formData) (net : authOutcome) (p : page)
  : handled :=
  ([LoginRequest (fd_email fd) (fd_password fd)],
   inr (settle "Welcome back!" "Login failed" net p)).

Definition nullLength : jsError :=
  JsError "TypeError" "Cannot read properties of null (reading 'length')".

Definition nullTrim : jsError :=
  JsError "TypeError" "Cannot read properties of null (reading 'trim')".

(** [password !== confirmPassword] *)
Definition differs (password : JsString.t)
    (confirmPassword : option JsString.t) : bool :=
  negb (bool_decide (confirmPassword = Some password)).

(** [handleRegister(e)] *)
Definition handleRegister (fd : formData) (net : authOutcome) (p : page)
  : handled :=
  match fd_password fd with
  | None => ([], inl nullLength)
  | Some password =>
      let passwordValidation := validatePassword password in
      if negb (valid passwordValidation) then
        ([], inr (showToast (message passwordValidation) "error" p))
      else if differs password (fd_confirmPassword fd) then
        ([], inr (showToast "Passwords do not match" "error" p))
      else
        ([RegisterRequest (fd_name fd) (fd_email fd) password],
         inr (settle "Account created successfully!" "Registration failed"
                net p))
  end.

(** [handleAdminRegister(e)] *)
Definition handleAdminRegister (fd : formData) (net : authOutcome) (p : page)
  : handled :=
  match fd_password fd with
  | None => ([], inl nullLength)
  | Some password =>
      let passwordValidation := validatePassword password in
      if negb (valid passwordValidation) then
        ([], inr (showToast (message passwordValidation) "error" p))
      else if differs password (fd_confirmPassword fd) then
        ([], inr (showToast "Passwords do not match" "error" p))
      else
        match fd_adminKey fd with
        | None => ([], inl nullTrim)
        | Some adminKey =>
            if String.eqb (Js.trim adminKey) "" then
              ([], inr (showToast "Admin registration key is required"
                          "error" p))
            else
              ([AdminRegisterRequest (fd_name fd) (fd_email fd) password
                  adminKey],
               inr (settle "Admin account created successfully!"
                      "Admin registration failed" net p))
        end
  end.

End LoginFlow.

(** ** The utility class [UI]: toast notifications *)

Module UIToast.

(** A toast element in the container: the number in its id
    [toast-<n>], its class and icon, its message, and whether the
    slide-out animation has been set on it. *)
Record toast := Toast {
  toast_id : nat;
  toast_type : string;
  toast_icon : string;
  toast_message : string;
  leaving : bool
}.

(** A pending [setTimeout]: the automatic removal scheduled by
    [showToast], or the detaching scheduled by [removeToast]. *)
Inductive timer :=
| AutoRemove (toastId : nat)
| Detach (toastId : nat).

(** The static members of [UI] and the children of the container.  No
    element outside the container carries an id of the form
    [toast-<n>], so that [getElementById] finds toasts only. *)
Record ui := Ui {
  toastContainer : bool;
  toastId : nat;
  toasts : list toast;
  timers : list timer
}.

(** [getToastIcon(type)] *)
Definition getToastIcon (type : string) : string :=
  if String.eqb type "success" then "check-circle"
  else if String.eqb type "error" then "exclamation-circle"
  else if String.eqb type "warning" then "exclamation-triangle"
  else "info-circle".

(** [showToast(message, type, duration)]: the state afterwards and the
    value returned, [None] for [undefined]. *)
Definition showToast (message type : string) (duration : nat) (s : ui)
  : ui * option nat :=
  if negb (toastContainer s) then (s, None)
  else
    let toastId := S (toastId s) in
    let toast := Toast toastId type (getToastIcon type) message false in
    (Ui (toastContainer s) toastId (toasts s ++ [toast])
        (if (0 <? duration)%nat then timers s ++ [AutoRemove toastId]
         else timers s),
     Some toastId).

Definition hasId (id : nat) (t : toast) : bool := Nat.eqb (toast_id t) id.

(** Setting the animation on the element [getElementById] found. *)
Fixpoint animate (id : nat) (l : list toast) : list toast :=
  match l with
  | [] => []
  | t :: rest =>
      if hasId id t
      then Toast (toast_id t) (toast_type t) (toast_icon t)
                 (toast_message t) true :: rest
      else t :: animate id rest
  end.

(** [removeToast(toastId)] *)
Definition removeToast (id : nat) (s : ui) : ui :=
  if existsb (hasId id) (toasts s)
  then Ui (toastContainer s) (toastId s) (animate id (toasts s))
          (timers s ++ [Detach id])
  else s.

(** [toast.parentNode.removeChild(toast)] when the element is still
    attached. *)
Fixpoint detach (id : nat) (l : list toast) : list toast :=
  match l with
  | [] => []
  | t :: rest => if hasId id t then rest else t :: detach id rest
  end.

(** One timer fires. *)
Definition fire (s : ui) (t : timer) : ui :=
  match t with
  | AutoRemove id => removeToast id s
  | Detach id =>
      Ui (toastContainer s) (toastId s) (detach id (toasts s)) (timers s)
  end.

(** Every timer that is pending fires, oldest first; the timers these
    schedule stay pending. *)
Definition pass (s : ui) : ui :=
  fold_left fire (timers s)
            (Ui (toastContainer s) (toastId s) (toasts s) []).

(** The [k]-th pending timer fires, if there is one. *)
Definition fireOne (k : nat) (s : ui) : ui :=
  match timers s !! k with
  | Some t =>
      fire (Ui (toastContainer s) (toastId s) (toasts s)
               (delete k (timers s))) t
  | None => s
  end.

(** What happens to the toasts: calls of the two methods, one pending
    timer firing, whichever it is, or all of them firing. *)
Inductive event :=
| Show (message type : string) (duration : nat)
| Remove (toastId : nat)
| Fire (k : nat)
| Elapse.

Definition step (s : ui) (e : event) : ui :=
  match e with
  | Show message type duration => (showToast message type duration s).1
  | Remove id => removeToast id s
  | Fire k => fireOne k s
  | Elapse => pass s
  end.

(** [UI.init()] on a page that has, or lacks, the container. *)
Definition init (container : bool) : ui := Ui container 0 [] [].

End UIToast.

(** ** The utility class [UI]: debounce and throttle *)

Module UITiming.

Section Wrappers.

(** The arguments of one call of the wrapped function. *)
Variable A : Type.

(** What happens to a wrapper: it is called, or its pending timeout
    expires. *)
Inductive event :=
| Call (args : A)
| Expire.

(** The closure of [debounce]: [timeout] holds a timer exactly when a
    [later] is pending, and that [later] has captured the arguments of
    the call that created it. *)
Definition debounced : Type := option A.

(** One event of a debounced function: the closure afterwards and the
    calls of [func] made. *)
Definition debounceStep (immediate : bool) (timeout : debounced)
    (e : event) : debounced * list A :=
  match e with
  | Call args =>
      let callNow := immediate && negb (bool_decide (is_Some timeout)) in
      (Some args, if callNow then [args] else [])
  | Expire =>
      match timeout with
      | Some args => (None, if negb immediate then [args] else [])
      | None => (None, [])
      end
  end.

(** The closure of [throttle]: the flag [inThrottle], and whether the
    timeout that clears it is pending. *)
Record throttled := Throttled { inThrottle : bool; resetPending : bool }.

(** One event of a throttled function. *)
Definition throttleStep (s : throttled) (e : event) : throttled * list A :=
  match e with
  | Call args =>
      if negb (inThrottle s) then (Throttled true true, [args])
      else (s, [])
  | Expire =>
      if resetPending s then (Throttled false false, [])
      else (s, [])
  end.

(** The calls of [func] over a sequence of events. *)
Fixpoint calls {S} (step : S -> event -> S * list A) (s : S)
    (es : list event) : list A :=
  match es with
  | [] => []
  | e :: es => (step s e).2 ++ calls step (step s e).1 es
  end.

Fixpoint final {S} (step : S -> event -> S * list A) (s : S)
    (es : list event) : S :=
  match es with
  | [] => s
  | e :: es => final step (step s e).1 es
  end.

End Wrappers.

Arguments Call {A} args.
Arguments Expire {A}.
Arguments debounceStep {A} immediate timeout e.
Arguments throttleStep {A} s e.
Arguments calls {A S} step s es.
Arguments final {A S} step s es.

End UITiming.

(** ** Properties of the password policy *)

Module LoginFacts.
Import JsString Login.

Lemma test_class_true cls s :
  test_class cls s = true <-> exists c, In c s /\ cls c = true.
Proof. unfold test_class. apply existsb_exists. Qed.

Lemma test_class_false cls s :
  test_class cls s = false <-> forall c, In c s -> cls c = false.
Proof.
  unfold test_class. induction s as [|a s IH]; simpl.
  - split; [intros _ c []|reflexivity].
  - rewrite orb_false_iff, IH. split.
    + intros [Ha Hs] c [<-|Hc]; auto.
    + intros H. split; [apply H; now left|intros c Hc; apply H; now right].
Qed.

Ltac split_rule password cls :=
  destruct (test_class cls password); cbn -[Nat.leb test_class].

Lemma validatePassword_refines password :
  validatePassword password = policyVerdict password.
Proof.
  unfold validatePassword, policyVerdict, firstViolation, policy,
    passwordRules.
  cbn -[Nat.leb test_class].
  destruct (8 <=? length password)%nat; cbn -[Nat.leb test_class];
    [|reflexivity].
  split_rule password isUppercase; [|reflexivity].
  split_rule password isLowercase; [|reflexivity].
  split_rule password isNumber; [|reflexivity].
  split_rule password isSpecial; reflexivity.
Qed.

Lemma validatePassword_valid_iff password :
  valid (validatePassword password) = true <->
  8 <= length password /\ contains isUppercase password /\
  contains isLowercase password /\ contains isNumber password /\
  contains isSpecial password.
Proof.
  unfold contains. rewrite <- !test_class_true.
  unfold validatePassword, passwordRules.
  cbn -[Nat.leb test_class].
  destruct (Nat.leb_spec 8 (length password)) as [Hl|Hl];
    cbn -[Nat.leb test_class].
  2:{ split; [discriminate|intros [H _]; lia]. }
  split_rule password isUppercase;
    [|split; [discriminate|intros (_ & H & _); discriminate]].
  split_rule password isLowercase;
    [|split; [discriminate|intros (_ & _ & H & _); discriminate]].
  split_rule password isNumber;
    [|split; [discriminate|intros (_ & _ & _ & H & _); discriminate]].
  split_rule password isSpecial;
    [|split; [discriminate|intros (_ & _ & _ & _ & H); discriminate]].
  split; auto.
Qed.

(** C2. [validatePassword] answers valid exactly when the password has
    at least 8 code units and contains an uppercase letter, a lowercase
    letter, a digit and a symbol of the punctuation set; otherwise its
    message is the one of the first violated rule in the order length,
    uppercase, lowercase, digit, symbol.  The three passwords the
    specification names get the length, the uppercase and the lowercase
    message. *)
Theorem validatePassword_first_violated_rule :
  (forall password,
      (valid (validatePassword password) = true <->
       8 <= length password /\ contains isUppercase password /\
       contains isLowercase password /\ contains isNumber password /\
       contains isSpecial password) /\
      validatePassword password = policyVerdict password) /\
  validatePassword (units "short") = Validation false msgLength /\
  validatePassword (units "longenough") = Validation false msgUppercase /\
  validatePassword (units "LONGENOUGH1!") = Validation false msgLowercase.
Proof.
  split; [|repeat split; vm_compute; reflexivity].
  intros password. split.
  - apply validatePassword_valid_iff.
  - apply validatePassword_refines.
Qed.

End LoginFacts.

(** ** Properties of the gateway *)

Module GatewayFacts.
Import Gateway.

(** The hook [window.authManager.showAuthModal] was called. *)
Definition hookInvoked (r : list effect * (jsError + jsonData)) : Prop :=
  In ShowAuthModal (fst r).

Definition failsWith (e : jsError) (r : list effect * (jsError + jsonData))
  : Prop := snd r = inl e.

(** At status 403 the flag is ignored: with the hook registered and the
    flag set, [request] does not call the hook and throws the generic
    error. *)
Lemma request_403_flag_is_generic :
  let r := request true "/datasets" noOptions
             (Responds 403 (inr (JsonData true None ""))) in
  ~ (hookInvoked r /\ failsWith AuthenticationRequired r) /\
  ~ hookInvoked r /\
  failsWith (Error "HTTP error! status: 403") r.
Proof.
  vm_compute. repeat split.
  - intros [[H|[]] _]. discriminate H.
  - intros [H|[]]. discriminate H.
Qed.

Lemma RequestFailed_distinct status data :
  error data <> Some "Authentication required" ->
  RequestFailed status data <> AuthenticationRequired.
Proof.
  unfold RequestFailed, AuthenticationRequired, Error, hasError.
  intros Hne Heq. destruct (error data) as [msg|]; simpl in Heq.
  - destruct (String.eqb msg ""); simpl in Heq.
    + discriminate Heq.
    + apply Hne. congruence.
  - discriminate Heq.
Qed.

(** C4, amended. At status 401 with the authentication-error flag set
    in the JSON body, [request] calls the show-auth-modal hook exactly
    when one is registered and throws [Error('Authentication required')];
    the generic failure of any status differs from that error unless
    the server's own message is that very text. *)
Theorem request_401_auth_error authManager endpoint o data :
  auth_error data = true ->
  let r := request authManager endpoint o (Responds 401 (inr data)) in
  (hookInvoked r <-> authManager = true) /\
  failsWith AuthenticationRequired r /\
  (forall status data',
      error data' <> Some "Authentication required" ->
      RequestFailed status data' <> AuthenticationRequired).
Proof.
  intros Hflag r. subst r. unfold request, tryBlock, hookInvoked, failsWith.
  rewrite Hflag. cbn -[In].
  split; [|split].
  - destruct authManager; simpl; split.
    + reflexivity.
    + intros _. right. now left.
    + intros [H|[]]. discriminate H.
    + discriminate.
  - destruct authManager; reflexivity.
  - apply RequestFailed_distinct.
Qed.

Lemma request_401_auth_error_witness :
  auth_error (JsonData true None "") = true /\
  failsWith AuthenticationRequired
    (request true "/query" noOptions
       (Responds 401 (inr (JsonData true None "")))).
Proof.
  split; [reflexivity|].
  apply (request_401_auth_error true "/query" noOptions
           (JsonData true None "")). reflexivity.
Defined.

End GatewayFacts.

(** ** Properties of the data-table renderer *)

Module DataTableFacts.
Import Js Html QueryResult AMINAAppRender.








Lemma toString_null_only (v : jsval) :
  v <> JNull -> displayValue (Own v) = toString v.
Proof. destruct v; [congruence|reflexivity..]. Qed.




(** C10. When the data sequence is empty or the columns are missing, the
    renderer returns the one paragraph [<p class="no-data">No data to
    display</p>], which holds no header, no row and no header cell. *)
Theorem renderDataTable_no_data table :
  data table = Some [] \/ columns table = None ->
  renderDataTable table =
    [Elem "p" [("class", "no-data")] [Text "No data to display"]] /\
  select (tagIs "thead") (renderDataTable table) = [] /\
  select (tagIs "tr") (renderDataTable table) = [] /\
  select (tagIs "th") (renderDataTable table) = [].
Proof.
  intros H.
  assert (renderDataTable table =
          [Elem "p" [("class", "no-data")] [Text "No data to display"]])
    as ->.
  { unfold renderDataTable. destruct H as [-> | ->].
    - destruct (columns table); reflexivity.
    - destruct (data table) as [[|r rows]|]; reflexivity. }
  repeat split; reflexivity.
Qed.

Lemma renderDataTable_no_data_witness :
  renderDataTable (DataTable (Some "T") None (Some [ {[ "a" := JNum "1" ]} ]))
  = [Elem "p" [("class", "no-data")] [Text "No data to display"]].
Proof.
  apply (renderDataTable_no_data
           (DataTable (Some "T") None (Some [ {[ "a" := JNum "1" ]} ]))).
  right. reflexivity.
Defined.

End DataTableFacts.

(** ** Properties of the container identifiers *)

Module VizIdFacts.
Import Js Html QueryResult PharmaQueryApp.

(** No character of the string is a hyphen. *)
Fixpoint noDash (s : string) : bool :=
  match s with
  | EmptyString => true
  | String c rest => negb (Ascii.eqb c "-") && noDash rest
  end.

Lemma pretty_N_go_noDash (x : N) (s : string) :
  noDash s = true -> noDash (pretty_N_go x s) = true.
Proof.
  revert s. induction (N.lt_wf_0 x) as [x _ IH]; intros s Hs.
  assert (x = 0 \/ 0 < x)%N as [->|Hpos] by lia.
  - now rewrite pretty_N_go_0.
  - rewrite pretty_N_go_step by assumption. apply IH.
    + now apply N.div_lt.
    + simpl. rewrite Hs, andb_true_r.
      unfold pretty_N_char. now repeat case_match.
Qed.

Lemma pretty_N_noDash (x : N) : noDash (pretty x) = true.
Proof.
  unfold pretty, pretty_N. case_decide; [reflexivity|].
  now apply pretty_N_go_noDash.
Qed.

(** A hyphen-free prefix is determined by the text up to the first
    hyphen. *)
Lemma dash_split (a a' b b' : string) :
  noDash a = true -> noDash a' = true ->
  a +:+ "-" +:+ b = a' +:+ "-" +:+ b' -> a = a' /\ b = b'.
Proof.
  revert a'. induction a as [|c a IH]; intros [|c' a'] Ha Ha' Heq;
    simpl in *.
  - now inversion Heq.
  - inversion Heq; subst c'. now rewrite Ascii.eqb_refl in Ha'.
  - inversion Heq; subst c. now rewrite Ascii.eqb_refl in Ha.
  - inversion Heq; subst c'.
    apply andb_true_iff in Ha as [_ Ha], Ha' as [_ Ha'].
    destruct (IH a' Ha Ha' H1) as [-> ->]. now split.
Qed.

Lemma vizId_inj now index now' index' :
  vizId now index = vizId now' index' -> now = now' /\ index = index'.
Proof.
  unfold vizId. intros Heq.
  assert (pretty now +:+ "-" +:+ pretty index
          = pretty now' +:+ "-" +:+ pretty index') as Heq'.
  { simpl in Heq. now inversion Heq. }
  apply dash_split in Heq' as [Hn Hi]; try apply pretty_N_noDash.
  split; [now apply (inj pretty)|now apply (inj pretty)].
Qed.

Lemma vizIds_lookup clock result i a :
  vizIds clock result !! i = Some a -> a = vizId (clock i) i.
Proof.
  unfold vizIds. rewrite list_lookup_imap.
  destruct (presentEntries (visualizations result) !! i); simpl;
    congruence.
Qed.

Lemma vizIds_NoDup clock result : NoDup (vizIds clock result).
Proof.
  apply NoDup_alt. intros i j a Hi Hj.
  apply vizIds_lookup in Hi, Hj. subst a.
  now apply vizId_inj in Hj as [_ ?].
Qed.

Definition chart (title : string) : visualization :=
  Visualization (Some title) (Some "chart") (Some "http://x/a.png") None.

Definition resultWith (vizs : list visualization) : QueryResult.t :=
  {| query := "q"; timestamp := "2024-01-01T00:00:00";
     datasets_used := Some ["sales"]; response := None;
     visualizations := Some vizs; data_tables := Some [] |}.

(** Two renders that read the same millisecond from [Date.now()] give
    their first containers the same identifier. *)
Lemma vizIds_collide_in_one_millisecond :
  let clock := fun _ : nat => 1700000000000%N in
  vizIds clock (resultWith [chart "A"]) !! 0 = Some "viz-1700000000000-0" /\
  vizIds clock (resultWith [chart "B"]) !! 0 = Some "viz-1700000000000-0" /\
  ~ (forall a b,
        vizIds clock (resultWith [chart "A"]) !! 0 = Some a ->
        vizIds clock (resultWith [chart "B"]) !! 0 = Some b -> a <> b).
Proof.
  assert (vizIds (fun _ : nat => 1700000000000%N) (resultWith [chart "A"])
            !! 0 = Some "viz-1700000000000-0") as HA
    by (vm_compute; reflexivity).
  assert (vizIds (fun _ : nat => 1700000000000%N) (resultWith [chart "B"])
            !! 0 = Some "viz-1700000000000-0") as HB
    by (vm_compute; reflexivity).
  cbv zeta. split; [exact HA|]. split; [exact HB|].
  intros H. now apply (H _ _ HA HB).
Qed.

(** C3, amended. The identifiers of one render are pairwise distinct,
    and two identifiers, of one render or of two, are equal exactly when
    they have the same index and [Date.now()] returned the same
    millisecond for both; so identifiers of two renders differ whenever
    the clock readings differ. *)
Theorem vizIds_equal_iff clock1 result1 clock2 result2 i j a b :
  vizIds clock1 result1 !! i = Some a ->
  vizIds clock2 result2 !! j = Some b ->
  NoDup (vizIds clock1 result1) /\
  (a = b <-> i = j /\ clock1 i = clock2 j).
Proof.
  intros Hi Hj. split; [apply vizIds_NoDup|].
  apply vizIds_lookup in Hi, Hj. subst a b. split.
  - intros H. apply vizId_inj in H as [? ?]. now split.
  - intros [-> ->]. reflexivity.
Qed.

Lemma vizIds_equal_iff_witness :
  "viz-1700000000000-0" = "viz-1700000000001-0" <->
  0 = 0 /\ 1700000000000%N = 1700000000001%N.
Proof.
  apply (vizIds_equal_iff (fun _ => 1700000000000%N) (resultWith [chart "A"])
           (fun _ => 1700000000001%N) (resultWith [chart "B"]) 0 0);
    vm_compute; reflexivity.
Defined.

End VizIdFacts.

(** ** Properties of the result-rendering pipeline *)

Module PipelineFacts.
Import Js Html QueryResult Gateway.










End PipelineFacts.

(** ** Properties of query execution and of uploads *)

Module ControllerFacts.
Import Js Html QueryResult Gateway Async AMINAApp.

Lemma run_bind {net S T} (respond : responder net) (m : async S)
    (f : S -> async T) (n : net) :
  run respond (bind m f) n =
  let '(n1, t1, s) := run respond m n in
  let '(n2, t2, r) := run respond (f s) n1 in
  (n2, (t1 ++ t2)%list, r).
Proof.
  revert n. induction m as [s|A call k IH]; intros n; simpl.
  - destruct (run respond (f s) n) as [[n2 t2] r]. reflexivity.
  - destruct (respond A call n) as [n1 r]. rewrite IH.
    destruct (run respond (k r) n1) as [[n1' t1] s].
    destruct (run respond (f s) n1') as [[n2 t2] x]. reflexivity.
Qed.

(** The reply is a failure: the gateway threw, or the answer declared
    no success. *)
Definition isFailure {A} (r : reply A) : Prop :=
  match r with Succeeds _ => False | _ => True end.

(** A network on which every call is declined with the same message. *)
Definition declining (msg : string) : responder unit :=
  fun A _ n => (n, Declines (Some msg)).

Definition sales : dataset :=
  Dataset "d1" "sales" 120 4 "2024-01-01" 2048 None.

Definition cachedResult : QueryResult.t :=
  QueryResult "earlier" "2024-01-01" (Some ["sales"]) (Some "42")
    None None.

Definition appWith (user : option user) (ds : list dataset)
    (cached : option QueryResult.t) (input : string) : app :=
  {| currentUser := user; datasets := ds; currentQuery := cached;
     queryInput := input; resultsContent := [Text "earlier result"];
     queryResultsDisplay := "block"; executeBtnDisabled := false;
     executeBtnLabel := labelExecute; datasetsList := Untouched;
     uploadProgressDisplay := "none"; uploadStatus := "";
     progressFillWidth := "0%"; fileInput := ""; toasts := [] |}.

(** C5. When a result is cached and the query fails, by a declared
    failure or an exception of the gateway, the cached result and the
    rendered content stay as they were, and if the request was issued
    the results container is hidden. *)
Theorem failed_query_keeps_cached_result {net : Type}
    (toLocaleString : string -> string) (respond : responder net)
    (n : net) (a : app) (cached : QueryResult.t) :
  currentQuery a = Some cached ->
  (forall q, isFailure (respond _ (API.executeQuery q) n).2) ->
  let out := run respond (executeQuery toLocaleString a) n in
  currentQuery (result out) = Some cached /\
  resultsContent (result out) = resultsContent a /\
  datasets (result out) = datasets a /\
  (trace out <> [] -> queryResultsDisplay (result out) = "none").
Proof.
  intros Hcached Hfail. unfold executeQuery.
  destruct (String.eqb (trim (queryInput a)) "").
  { simpl. repeat split; try assumption. intros H. now destruct H. }
  destruct (datasets a) as [|d ds] eqn:Hds.
  { simpl. repeat split; try assumption. intros H. now destruct H. }
  specialize (Hfail (trim (queryInput a))). cbn [run].
  destruct (respond _ (API.executeQuery (trim (queryInput a))) n)
    as [n1 [e|err|value]]; simpl in Hfail; [| |contradiction];
    simpl; repeat split; assumption.
Qed.

Lemma failed_query_keeps_cached_result_witness :
  let out := run (declining "engine unavailable")
               (executeQuery (fun t => t)
                  (appWith None [sales] (Some cachedResult) "top sales"))
               tt in
  currentQuery (result out) = Some cachedResult /\
  queryResultsDisplay (result out) = "none".
Proof.
  destruct (failed_query_keeps_cached_result (fun t => t)
              (declining "engine unavailable") tt
              (appWith None [sales] (Some cachedResult) "top sales")
              cachedResult eq_refl (fun _ => I))
    as (Hc & _ & _ & Hd).
  split; [exact Hc|]. apply Hd. vm_compute. discriminate.
Defined.

(** The request is an upload. *)
Definition isUpload (r : request) : bool :=
  String.eqb r.1 "/upload" || String.eqb r.1 "/admin/shared-datasets/upload".

(** The request [uploadFile] issues for a file. *)
Definition uploadRequest (a : app) (file : string) : request :=
  if isAdmin a then describe (API.uploadSharedDataset file)
  else describe (API.uploadDataset file).

Lemma run_loadSharedDatasets {net} (respond : responder net) n a :
  let out := run respond (loadSharedDatasets a) n in
  List.filter isUpload (trace out) = [] /\
  currentUser (result out) = currentUser a.
Proof.
  unfold loadSharedDatasets, isAdmin, setDatasetsList; cbn [currentUser].
  destruct (currentUser a) as [[u [|]]|]; cbn [run is_admin];
    match goal with
    | |- context [respond ?A ?c ?n] =>
        destruct (respond A c n) as [n1 [e|err|ds]]
    end;
    simpl; (split; [reflexivity|]);
    try reflexivity;
    unfold renderSharedDatasetsList; destruct ds; reflexivity.
Qed.

Lemma run_uploadFile {net} (respond : responder net) n a file :
  let out := run respond (uploadFile file a) n in
  List.filter isUpload (trace out) = [uploadRequest a file] /\
  currentUser (result out) = currentUser a.
Proof.
  unfold uploadFile, uploadRequest.
  replace (isAdmin (setProgress "block" ("Uploading " +:+ file +:+ "...")
                      "0%" a)) with (isAdmin a) by reflexivity.
  destruct (isAdmin a); cbn [run];
    match goal with
    | |- context [respond ?A ?c ?n] =>
        destruct (respond A c n) as [n1 [e|err|[]]]
    end;
    try (simpl; split; reflexivity);
    match goal with
    | |- context [run respond (loadSharedDatasets ?b) ?m] =>
        pose proof (run_loadSharedDatasets respond m b) as [Hf Hu];
        destruct (run respond (loadSharedDatasets b) m) as [[n2 t2] a2]
    end;
    unfold trace, result in *; cbn [fst snd] in *;
    cbn [List.filter describe fst isUpload String.eqb orb];
    simpl; rewrite Hf; (split; [reflexivity|exact Hu]).
Qed.

Lemma uploadRequest_same_user a a' file :
  currentUser a' = currentUser a ->
  uploadRequest a' file = uploadRequest a file.
Proof. unfold uploadRequest, isAdmin. now intros ->. Qed.

Lemma run_forEach_uploadFile {net} (respond : responder net) files :
  forall n a,
    let out := run respond (forEachAwait uploadFile files a) n in
    List.filter isUpload (trace out) = map (uploadRequest a) files /\
    currentUser (result out) = currentUser a.
Proof.
  induction files as [|file files IH]; intros n a.
  - split; reflexivity.
  - cbn [forEachAwait]. rewrite run_bind.
    pose proof (run_uploadFile respond n a file) as [Hf Hu].
    destruct (run respond (uploadFile file a) n) as [[n1 t1] a1].
    pose proof (IH n1 a1) as [Hf' Hu'].
    destruct (run respond (forEachAwait uploadFile files a1) n1)
      as [[n2 t2] a2].
    unfold trace, result in *. cbn [fst snd map] in *.
    rewrite List.filter_app, Hf, Hf'. split.
    + cbn [List.app]. f_equal. apply map_ext. intros f.
      now apply uploadRequest_same_user.
    + congruence.
Qed.

(** A network that declines the first upload, breaks during the second
    and accepts every later one; the state counts the uploads seen. *)
Definition flaky : responder nat :=
  fun A call =>
    match call in API.call A return nat -> nat * reply A with
    | API.uploadDataset _ | API.uploadSharedDataset _ =>
        fun n => (S n, match n with
                       | 0 => Declines (Some "Unsupported file format")
                       | 1 => Throws NetworkError
                       | _ => Succeeds tt
                       end)
    | API.getSharedDatasets | API.getAdminSharedDatasets =>
        fun n => (n, Succeeds [sales])
    | API.renameSharedDataset _ _ => fun n => (n, Declines None)
    | API.executeQuery _ => fun n => (n, Declines None)
    end.

Example batch_with_two_failures :
  let out := run flaky
               (handleFileSelect ["a.csv"; "b.csv"; "c.csv"]
                  (appWith None [] None ""))
               0 in
  trace out =
    [ describe (API.uploadDataset "a.csv");
      describe (API.uploadDataset "b.csv");
      describe (API.uploadDataset "c.csv");
      describe API.getSharedDatasets ] /\
  toasts (result out) =
    [ ("Failed to upload a.csv: Unsupported file format", "error");
      ("Failed to upload b.csv: Network error. Please check your connection and try again.",
       "error");
      ("Successfully uploaded c.csv", "success") ] /\
  datasets (result out) = [sales].
Proof. vm_compute. repeat split. Qed.

(** C6. Whatever the network answers to each request, a batch submits
    one upload request per file, in the order of the files: a declared
    failure or an exception for one file does not keep the later files
    from being submitted. *)
Theorem every_file_of_a_batch_is_submitted {net : Type}
    (respond : responder net) (n : net) (a : app) (files : list string) :
  let out := run respond (handleFileSelect files a) n in
  List.filter isUpload (trace out) = map (uploadRequest a) files /\
  fileInput (result out) = "".
Proof.
  unfold handleFileSelect. rewrite run_bind.
  pose proof (run_forEach_uploadFile respond files n a) as [Hf _].
  destruct (run respond (forEachAwait uploadFile files a) n)
    as [[n1 t1] a1].
  unfold trace, result in *. cbn [run fst snd] in *.
  rewrite app_nil_r. split; [exact Hf|reflexivity].
Qed.

End ControllerFacts.

(** ** Properties of renaming *)

Module RenameFacts.
Import Js Gateway Async AMINAApp.

Definition admin : user := User "Ada" true.







Lemma trim_nonempty N : trim N <> "" -> N <> "".
Proof. intros H ->. now apply H. Qed.

Definition sales : dataset :=
  Dataset "d1" "sales" 120 4 "2024-01-01" 2048 None.

Definition adminApp : app :=
  {| currentUser := Some admin; datasets := [sales]; currentQuery := None;
     queryInput := ""; resultsContent := [];
     queryResultsDisplay := "none"; executeBtnDisabled := false;
     executeBtnLabel := labelExecute; datasetsList := Untouched;
     uploadProgressDisplay := "none"; uploadStatus := "";
     progressFillWidth := "0%"; fileInput := ""; toasts := [] |}.


(** An answer that is white space only, here one no-break space
    (U+00A0), is turned down like the empty answer: nothing is sent and
    nothing changes. *)
Lemma rename_with_no_break_space_sends_nothing :
  let N := String (ascii_of_nat 194) (String (ascii_of_nat 160) "") in
  trim N = "" /\
  run Server.serve (renameSharedDataset "d1" (Some N) adminApp) [sales]
  = ([sales], [], adminApp).
Proof. vm_compute. split; reflexivity. Qed.





End RenameFacts.

(** ** Properties of form validation *)

Module UIFacts.
Import UI.

Definition loginForm : form :=
  {[ "email" := Field "ada@example" false None;
     "password" := Field "" false None ]}.

Definition loginRules : list (string * fieldRules) :=
  [ ("email", FieldRules true None None true None);
    ("password", FieldRules true (Some 8) None false None) ].

(** On a form that exists every field is checked and annotated. *)
Example validateForm_existing_form :
  validateForm {[ "loginFormElement" := loginForm ]} "loginFormElement"
    loginRules
  = ({[ "loginFormElement" :=
          {[ "email" := Field "ada@example" true
                          (Some "Please enter a valid email address");
             "password" := Field "" true
                             (Some "Minimum length is 8 characters") ]} ]},
     Returns false
       {[ "email" := "Please enter a valid email address";
          "password" := "Minimum length is 8 characters" ]}).
Proof. vm_compute. reflexivity. Qed.

(** C9. For a form identifier that names no form of the document,
    [validateForm] returns the bare [false], which is not an
    [{ isValid, errors }] object, and leaves every field of the
    document as it was, whatever the rules. *)
Theorem validateForm_missing_form (doc : document) (formId : string)
    (rules : list (string * fieldRules)) :
  doc !! formId = None ->
  validateForm doc formId rules = (doc, ReturnsFalse) /\
  forall isValid errors, ReturnsFalse <> Returns isValid errors.
Proof.
  intros Hmissing. unfold validateForm. rewrite Hmissing.
  split; [reflexivity|discriminate].
Qed.

Lemma validateForm_missing_form_witness :
  validateForm {[ "loginFormElement" := loginForm ]} "registerFormElement"
    loginRules
  = ({[ "loginFormElement" := loginForm ]}, ReturnsFalse).
Proof.
  apply (validateForm_missing_form
           {[ "loginFormElement" := loginForm ]} "registerFormElement"
           loginRules).
  vm_compute. reflexivity.
Defined.

End UIFacts.

(** ** Further properties of query execution *)

Module QueryExecutionFacts.
Import Js Html QueryResult Gateway Async AMINAApp.

(** The query passes the two checks made before any request. *)
Definition accepted (a : app) : Prop :=
  trim (queryInput a) <> "" /\ datasets a <> [].

Lemma executeQuery_accepted (toLocaleString : string -> string) (a : app) :
  accepted a ->
  exists k,
    executeQuery toLocaleString a
    = Await (API.executeQuery (trim (queryInput a))) k /\
    forall response,
      exists a', k response = Return (setExecuteBtn false labelExecute a') /\
      match response with
      | Succeeds result =>
          match AMINAAppRender.renderQueryResults toLocaleString result with
          | inr content =>
              currentQuery a' = Some result /\
              resultsContent a' = content /\
              queryResultsDisplay a' = "block" /\
              toasts a' = (toasts a
                          ++ [("Query executed successfully", "success")])%list
          | inl error =>
              currentQuery a' = Some result /\
              resultsContent a' = resultsContent a /\
              queryResultsDisplay a' = "none" /\
              toasts a' = (toasts a
                          ++ [("Query failed: " +:+ message error, "error")])%list
          end
      | Declines _ | Throws _ =>
          currentQuery a' = currentQuery a /\
          queryResultsDisplay a' = "none"
      end.
Proof.
  intros [Hq Hd]. unfold executeQuery.
  apply String.eqb_neq in Hq. rewrite Hq.
  destruct (datasets a) as [|d ds] eqn:E; [now destruct Hd|].
  eexists. split; [reflexivity|].
  intros [e|err|result]; cbn beta iota.
  - eexists. split; [reflexivity|]. now split.
  - eexists. split; [reflexivity|]. now split.
  - destruct (AMINAAppRender.renderQueryResults toLocaleString result)
      as [error|content] eqn:R;
      (eexists; split; [reflexivity|]); rewrite ?R; now repeat split.
Qed.

(** X1. A blank query, or a query while no dataset is loaded, issues no
    request: the only change is one warning notice. *)
Theorem executeQuery_rejected_without_request {net : Type}
    (toLocaleString : string -> string) (respond : responder net) (n : net)
    (a : app) :
  trim (queryInput a) = "" \/ datasets a = [] ->
  let out := run respond (executeQuery toLocaleString a) n in
  trace out = [] /\ finalNet out = n /\
  exists msg, result out = showToast msg "warning" a.
Proof.
  intros H. unfold executeQuery.
  destruct (String.eqb (trim (queryInput a)) "") eqn:Hq.
  - simpl. repeat split. now eexists.
  - destruct H as [H|H].
    + apply String.eqb_neq in Hq. now destruct Hq.
    + rewrite H. simpl. repeat split. now eexists.
Qed.

Lemma executeQuery_rejected_without_request_witness :
  trace (run (ControllerFacts.declining "x")
           (executeQuery (fun t => t)
              (ControllerFacts.appWith None [ControllerFacts.sales] None "  "))
           tt) = [].
Proof.
  apply (executeQuery_rejected_without_request (fun t => t)
           (ControllerFacts.declining "x") tt
           (ControllerFacts.appWith None [ControllerFacts.sales] None "  ")).
  left. vm_compute. reflexivity.
Defined.

(** X2. An accepted query issues exactly one request, which carries the
    trimmed text, and whatever the reply the button ends up enabled with
    its label restored. *)
Theorem executeQuery_restores_button {net : Type}
    (toLocaleString : string -> string) (respond : responder net) (n : net)
    (a : app) :
  accepted a ->
  let out := run respond (executeQuery toLocaleString a) n in
  trace out = [describe (API.executeQuery (trim (queryInput a)))] /\
  executeBtnDisabled (result out) = false /\
  executeBtnLabel (result out) = labelExecute.
Proof.
  intros Ha.
  destruct (executeQuery_accepted toLocaleString a Ha) as (k & -> & Hk).
  cbn [run].
  destruct (respond _ (API.executeQuery (trim (queryInput a))) n)
    as [n1 response].
  destruct (Hk response) as (a' & -> & _). now repeat split.
Qed.

Lemma executeQuery_restores_button_witness :
  executeBtnDisabled
    (result (run (ControllerFacts.declining "x")
               (executeQuery (fun t => t)
                  (ControllerFacts.appWith None [ControllerFacts.sales] None
                     " top sales "))
               tt)) = false.
Proof.
  apply (executeQuery_restores_button (fun t => t)
           (ControllerFacts.declining "x") tt
           (ControllerFacts.appWith None [ControllerFacts.sales] None
              " top sales ")).
  split; vm_compute; discriminate.
Defined.

(** X3. When the server reports success but the result lacks
    [datasets_used], rendering throws after the cache was assigned: the
    new result is cached although the content still shows the previous
    one, the container is hidden and a failure is reported. *)
Theorem unrenderable_result_is_cached_but_hidden {net : Type}
    (toLocaleString : string -> string) (respond : responder net) (n : net)
    (a : app) (r : QueryResult.t) :
  accepted a ->
  (respond _ (API.executeQuery (trim (queryInput a))) n).2 = Succeeds r ->
  datasets_used r = None ->
  let out := run respond (executeQuery toLocaleString a) n in
  currentQuery (result out) = Some r /\
  resultsContent (result out) = resultsContent a /\
  queryResultsDisplay (result out) = "none" /\
  exists msg, toasts (result out) = (toasts a ++ [(msg, "error")])%list.
Proof.
  intros Ha Hr Hused.
  destruct (executeQuery_accepted toLocaleString a Ha) as (k & -> & Hk).
  cbn [run].
  destruct (respond _ (API.executeQuery (trim (queryInput a))) n)
    as [n1 response]. simpl in Hr. subst response.
  destruct (Hk (Succeeds r)) as (a' & -> & Hok).
  unfold AMINAAppRender.renderQueryResults, PharmaQueryApp.headerBlock in Hok.
  rewrite Hused in Hok. destruct Hok as (Hc & Hcontent & Hd & Ht).
  repeat split; try assumption. eexists. exact Ht.
Qed.

(** The network of the witness: it answers a query with a result that
    has no [datasets_used]. *)
Definition truncating : responder unit :=
  fun A call =>
    match call in API.call A return unit -> unit * reply A with
    | API.executeQuery q =>
        fun n => (n, Succeeds (QueryResult q "2024-01-01" None None None None))
    | API.getSharedDatasets | API.getAdminSharedDatasets =>
        fun n => (n, Declines None)
    | _ => fun n => (n, Declines None)
    end.

Lemma unrenderable_result_is_cached_but_hidden_witness :
  let a := ControllerFacts.appWith None [ControllerFacts.sales]
             (Some ControllerFacts.cachedResult) "top sales" in
  let out := run truncating (executeQuery (fun t => t) a) tt in
  currentQuery (result out)
    = Some (QueryResult "top sales" "2024-01-01" None None None None) /\
  resultsContent (result out) = [Text "earlier result"].
Proof.
  destruct (unrenderable_result_is_cached_but_hidden (fun t => t) truncating
              tt
              (ControllerFacts.appWith None [ControllerFacts.sales]
                 (Some ControllerFacts.cachedResult) "top sales")
              (QueryResult "top sales" "2024-01-01" None None None None))
    as (Hc & Hcontent & _).
  - split; vm_compute; discriminate.
  - vm_compute. reflexivity.
  - reflexivity.
  - split; [exact Hc|exact Hcontent].
Defined.




End QueryExecutionFacts.

(** ** Further properties of loading, uploading and renaming *)

Module DatasetFacts.
Import Js Html QueryResult Gateway Async AMINAApp.

(** The list request a controller issues, by the role of its user. *)
Definition listRequest (a : app) : request :=
  if isAdmin a then describe API.getAdminSharedDatasets
  else describe API.getSharedDatasets.

(** The reply the network gives to the list request of [a]. *)
Definition listReply {net} (respond : responder net) (a : app) (n : net)
  : reply (list dataset) :=
  if isAdmin a then (respond _ API.getAdminSharedDatasets n).2
  else (respond _ API.getSharedDatasets n).2.

(** The reply the network gives to the upload of [file] by [a]. *)
Definition uploadReply {net} (respond : responder net) (a : app)
    (file : string) (n : net) : reply unit :=
  if isAdmin a then (respond _ (API.uploadSharedDataset file) n).2
  else (respond _ (API.uploadDataset file) n).2.

Definition succeeded {A} (r : reply A) : bool :=
  match r with Succeeds _ => true | _ => false end.

Lemma loadSharedDatasets_trace {net : Type} (respond : responder net)
    (n : net) (a : app) :
  trace (run respond (loadSharedDatasets a) n) = [listRequest a].
Proof.
  unfold loadSharedDatasets, listRequest.
  replace (isAdmin (setDatasetsList (LoadingState "Loading...") a))
    with (isAdmin a) by reflexivity.
  destruct (isAdmin a); cbn [run];
    match goal with
    | |- context [respond ?A ?c ?n] =>
        destruct (respond A c n) as [n1 [e|err|ds]]
    end; reflexivity.
Qed.

(** X5. [loadSharedDatasets] issues one list request, to the administrator's
    endpoint exactly for an administrator.  A successful answer replaces
    the cache by the datasets received, without merging; any failure
    keeps the cache as it was, puts the error state into the list and
    adds one error notice. *)
Theorem loadSharedDatasets_replaces_or_keeps {net : Type}
    (respond : responder net) (n : net) (a : app) :
  let out := run respond (loadSharedDatasets a) n in
  trace out = [listRequest a] /\
  match listReply respond a n with
  | Succeeds ds =>
      datasets (result out) = ds /\ toasts (result out) = toasts a
  | Declines _ | Throws _ =>
      datasets (result out) = datasets a /\
      datasetsList (result out) = ErrorState "Failed to load datasets" /\
      toasts (result out)
      = (toasts a ++ [("Failed to load datasets", "error")])%list
  end.
Proof.
  unfold loadSharedDatasets, listRequest, listReply.
  replace (isAdmin (setDatasetsList (LoadingState "Loading...") a))
    with (isAdmin a) by reflexivity.
  destruct (isAdmin a); cbn [run];
    match goal with
    | |- context [respond ?A ?c ?n] =>
        destruct (respond A c n) as [n1 [e|err|ds]]
    end;
    cbn [snd]; (split; [reflexivity|]);
    try (now repeat split);
    unfold result, renderSharedDatasetsList;
    cbn [snd datasets setDatasets setDatasetsList];
    destruct ds; now split.
Qed.

(** X6. [uploadFile] issues the upload request, to the administrator's
    endpoint exactly for an administrator, and reloads the list exactly
    when the upload succeeded; a failed upload is followed by no further
    request, leaves the cache as it was and adds one error notice that
    names the file. *)
Theorem uploadFile_reloads_only_after_success {net : Type}
    (respond : responder net) (n : net) (a : app) (file : string) :
  let out := run respond (uploadFile file a) n in
  if succeeded (uploadReply respond a file n)
  then trace out = [ControllerFacts.uploadRequest a file; listRequest a]
  else trace out = [ControllerFacts.uploadRequest a file] /\
       datasets (result out) = datasets a /\
       exists reason,
         toasts (result out)
         = (toasts a
            ++ [("Failed to upload " +:+ file +:+ ": " +:+ reason, "error")])
           %list.
Proof.
  unfold uploadFile, uploadReply, ControllerFacts.uploadRequest.
  replace (isAdmin (setProgress "block" ("Uploading " +:+ file +:+ "...")
                      "0%" a)) with (isAdmin a) by reflexivity.
  destruct (isAdmin a) eqn:Ha; cbn [run];
    match goal with
    | |- context [respond ?A ?c ?n] =>
        destruct (respond A c n) as [n1 [e|err|[]]]
    end;
    cbn [snd succeeded];
    try (split; [reflexivity|]; split; [reflexivity|]; eexists; reflexivity);
    match goal with
    | |- context [run respond (loadSharedDatasets ?b) ?m] =>
        pose proof (loadSharedDatasets_trace respond m b) as Ht;
        destruct (run respond (loadSharedDatasets b) m) as [[n2 t2] a2]
    end;
    unfold trace, listRequest in *; cbn [fst snd] in *; subst t2;
    unfold isAdmin in *; cbn [currentUser showToast setProgress] in *;
    rewrite Ha; reflexivity.
Qed.

(** X7. For a user who is not an administrator [renameSharedDataset] does
    nothing, whatever is answered to the prompt, while [renameDataset]
    has no such guard: given a new name it sends the rename request to
    the administrators' endpoint. *)
Theorem rename_guard_differs {net : Type} (respond : responder net) (n : net)
    (a : app) (datasetId : string) (d : dataset) (N : string) :
  isAdmin a = false ->
  findDataset datasetId a = Some d ->
  N <> "" -> N <> name d ->
  (forall answer,
      run respond (renameSharedDataset datasetId answer a) n = (n, [], a)) /\
  exists rest,
    trace (run respond (renameDataset datasetId (Some N) a) n)
    = describe (API.renameSharedDataset datasetId N) :: rest.
Proof.
  intros Ha Hfind HN Hname. split.
  - intros answer. unfold renameSharedDataset. now rewrite Ha.
  - unfold renameDataset. rewrite Hfind. cbn [truthy interpolate].
    apply String.eqb_neq in HN as ->. apply String.eqb_neq in Hname as ->.
    cbn [negb andb run].
    destruct (respond _ (API.renameSharedDataset datasetId N) n) as [n1 r].
    match goal with
    | |- context [run respond ?m n1] =>
        destruct (run respond m n1) as [[n2 t2] a2]
    end.
    now eexists.
Qed.

Lemma rename_guard_differs_witness :
  let a := ControllerFacts.appWith (Some (User "Bo" false))
             [ControllerFacts.sales] None "" in
  run Server.serve (renameSharedDataset "d1" (Some "Q3") a)
    [ControllerFacts.sales]
  = ([ControllerFacts.sales], [], a).
Proof.
  apply (rename_guard_differs Server.serve [ControllerFacts.sales]
           (ControllerFacts.appWith (Some (User "Bo" false))
              [ControllerFacts.sales] None "")
           "d1" ControllerFacts.sales "Q3");
    [reflexivity|reflexivity|discriminate|discriminate].
Defined.

(** X8. When the rename request fails, by a declared failure or an
    exception, nothing else is requested: the list is not reloaded, the
    cache is as before and one error notice is added. *)
Theorem failed_rename_keeps_cache {net : Type} (respond : responder net)
    (n : net) (a : app) (datasetId : string) (d : dataset) (N : string) :
  isAdmin a = true ->
  findDataset datasetId a = Some d ->
  trim N <> "" -> N <> name d ->
  succeeded (respond _ (API.renameSharedDataset datasetId (trim N)) n).2
  = false ->
  let out := run respond (renameSharedDataset datasetId (Some N) a) n in
  trace out = [describe (API.renameSharedDataset datasetId (trim N))] /\
  result out = showToast "Failed to rename dataset" "error" a.
Proof.
  intros Ha Hfind Htrim Hname Hfail. unfold renameSharedDataset.
  rewrite Ha, Hfind. cbn [negb truthy interpolate].
  apply String.eqb_neq in Hname as ->.
  pose proof (RenameFacts.trim_nonempty N Htrim) as HN.
  apply String.eqb_neq in HN as ->. apply String.eqb_neq in Htrim as ->.
  cbn [negb orb run].
  destruct (respond _ (API.renameSharedDataset datasetId (trim N)) n)
    as [n1 [e|err|[]]]; simpl in Hfail; try discriminate Hfail;
    now split.
Qed.

Lemma failed_rename_keeps_cache_witness :
  result (run (ControllerFacts.declining "locked")
            (renameSharedDataset "d1" (Some "Q3") RenameFacts.adminApp) tt)
  = showToast "Failed to rename dataset" "error" RenameFacts.adminApp.
Proof.
  apply (failed_rename_keeps_cache (ControllerFacts.declining "locked") tt
           RenameFacts.adminApp "d1" RenameFacts.sales "Q3");
    try reflexivity; try discriminate.
Defined.

End DatasetFacts.

(** ** Further properties of form validation *)

Module FormFacts.
Import Js UI.

(** The step of the [forEach] over the rules, as [validateForm] folds
    it. *)
Definition ruleStep (acc : form * bool * gmap string string)
    (rule : string * fieldRules) : form * bool * gmap string string :=
  let '(form, isValid, errors) := acc in
  let '(fieldName, fieldRules) := rule in
  match form !! fieldName with
  | None => (form, isValid, errors)
  | Some f =>
      let '(f, isValid, errors) :=
        validateField fieldName fieldRules f isValid errors in
      (<[fieldName := f]> form, isValid, errors)
  end.

Lemma validateForm_fold (doc : document) (formId : string)
    (rules : list (string * fieldRules)) (form : form) :
  doc !! formId = Some form ->
  forallb plainKey (map fst rules) = true ->
  validateForm doc formId rules =
  let '(form', isValid, errors) :=
    fold_left ruleStep rules (form, true, ∅) in
  (<[formId := form']> doc, Returns isValid errors).
Proof.
  intros Hform Hplain. unfold validateForm. rewrite Hform, Hplain.
  cbn [negb]. clear Hplain.
  replace (fold_left _ rules (form, true, ∅))
    with (fold_left ruleStep rules (form, true, ∅)); [reflexivity|].
  generalize (form, true, (∅ : gmap string string)).
  induction rules as [|[name fr] rules IH]; intros [[g v] e]; [reflexivity|].
  simpl. rewrite <- IH. reflexivity.
Qed.











(** The rule names a field of the form. *)
Definition present (form : form) (rule : string * fieldRules) : bool :=
  bool_decide (is_Some (form !! rule.1)).

Lemma fold_skips_missing (form : form) rules :
  forall (g : UI.form) v e,
    (forall k, is_Some (g !! k) <-> is_Some (form !! k)) ->
    fold_left ruleStep rules (g, v, e)
    = fold_left ruleStep (List.filter (present form) rules) (g, v, e).
Proof.
  induction rules as [|[name fr] rules IH]; intros g v e Hdom;
    [reflexivity|].
  cbn [List.filter fold_left]. unfold present at 1. cbn [fst].
  case_bool_decide as Hp.
  - cbn [fold_left]. apply Hdom in Hp. destruct Hp as [f Hf].
    cbn [ruleStep]. rewrite Hf.
    destruct (validateField name fr f v e) as [[f' v'] e'].
    apply IH. intros k. rewrite <- Hdom.
    destruct (decide (name = k)) as [->|Hne].
    + rewrite lookup_insert_eq, Hf. split; eauto.
    + now rewrite lookup_insert_ne.
  - assert (g !! name = None) as Hnone.
    { destruct (g !! name) eqn:E; [|reflexivity].
      destruct Hp. apply Hdom. eauto. }
    cbn [ruleStep]. rewrite Hnone. now apply IH.
Qed.

Lemma filter_plain (keep : string * fieldRules -> bool) rules :
  forallb plainKey (map fst rules) = true ->
  forallb plainKey (map fst (List.filter keep rules)) = true.
Proof.
  induction rules as [|rule rules IH]; [reflexivity|].
  cbn [map forallb List.filter]. intros [Hr Hrs]%andb_true_iff.
  destruct (keep rule); [|now apply IH].
  cbn [map forallb]. now rewrite Hr, IH.
Qed.

(** X10. With plain rule keys, a rule that names a field the form does
    not have is skipped: the outcome is the one of the rules whose fields
    exist, so that a [required] rule for a missing field never makes the
    form invalid. *)
Theorem validateForm_skips_missing_fields (doc : document) (formId : string)
    (rules : list (string * fieldRules)) (form : form) :
  doc !! formId = Some form ->
  forallb plainKey (map fst rules) = true ->
  validateForm doc formId rules
  = validateForm doc formId (List.filter (present form) rules).
Proof.
  intros Hform Hplain.
  rewrite (validateForm_fold doc formId _ form Hform Hplain).
  rewrite (validateForm_fold doc formId _ form Hform
             (filter_plain (present form) rules Hplain)).
  now rewrite (fold_skips_missing form rules form true ∅).
Qed.

Lemma validateForm_skips_missing_fields_witness :
  validateForm {[ "loginFormElement" := UIFacts.loginForm ]}
    "loginFormElement"
    [("name", FieldRules true None None false None)]
  = ({[ "loginFormElement" := UIFacts.loginForm ]}, Returns true ∅).
Proof.
  assert (({[ "loginFormElement" := UIFacts.loginForm ]} : document)
            !! "loginFormElement" = Some UIFacts.loginForm) as Hform
    by (vm_compute; reflexivity).
  rewrite (validateForm_skips_missing_fields
             {[ "loginFormElement" := UIFacts.loginForm ]}
             "loginFormElement"
             [("name", FieldRules true None None false None)]
             UIFacts.loginForm Hform eq_refl).
  vm_compute. reflexivity.
Defined.







End FormFacts.

(** ** The e-mail pattern *)

Module EmailFacts.
Import Js UI.

(** What the pattern [^[^\s@]+@[^\s@]+\.[^\s@]+$] says: the text is a
    non-empty part, an [@], a non-empty part, a full stop and a
    non-empty part, and no part holds white space or an [@]. *)
Definition matchesPattern (s : list ascii) : Prop :=
  exists a b c : list ascii,
    a <> [] /\ b <> [] /\ c <> [] /\
    emailPart a = true /\ emailPart b = true /\ emailPart c = true /\
    s = (a ++ "@"%char :: b ++ "."%char :: c)%list.

Lemma splitAt_Some s before after :
  splitAt s = Some (before, after) ->
  s = (before ++ "@"%char :: after)%list.
Proof.
  revert before. induction s as [|c s IH]; intros before H; [discriminate H|].
  simpl in H. destruct (Ascii.eqb c "@") eqn:Hc.
  - apply Ascii.eqb_eq in Hc. now inversion H; subst.
  - destruct (splitAt s) as [[b a]|]; [|discriminate H].
    inversion H; subst. simpl. f_equal. now apply IH.
Qed.

Lemma splitAt_app before after :
  existsb isAt before = false ->
  splitAt (before ++ "@"%char :: after) = Some (before, after).
Proof.
  induction before as [|c before IH]; intros H; [reflexivity|].
  simpl in *. apply orb_false_iff in H as [Hc H].
  unfold isAt in Hc. now rewrite Hc, IH.
Qed.

(** A byte that occurs in no code of white space cuts the search for
    one: white space never reaches across it. *)
Lemma dropPrefix_cut p c :
  ~ In (nat_of_ascii c) p ->
  forall l r, is_Some (dropPrefix p (l ++ c :: r)) <-> is_Some (dropPrefix p l).
Proof.
  induction p as [|n p IH]; intros Hc l r; [simpl; split; eauto|].
  destruct l as [|d l]; simpl.
  - destruct (Nat.eqb_spec n (nat_of_ascii c)) as [->|_].
    + destruct Hc. now left.
    + split; intros [? H]; discriminate H.
  - destruct (Nat.eqb n (nat_of_ascii d)).
    + apply IH. intros H. apply Hc. now right.
    + reflexivity.
Qed.

Lemma dropOne_cons p codes l :
  is_Some (dropOne (p :: codes) l)
  <-> is_Some (dropPrefix p l) \/ is_Some (dropOne codes l).
Proof.
  simpl. destruct (dropPrefix p l) as [x|].
  - split; eauto.
  - split; [now right|]. intros [[? H]|H]; [discriminate H|exact H].
Qed.

Lemma dropOne_cut codes c :
  Forall (fun p => ~ In (nat_of_ascii c) p) codes ->
  forall l r, is_Some (dropOne codes (l ++ c :: r)) <-> is_Some (dropOne codes l).
Proof.
  induction 1 as [|p codes Hp _ IH]; intros l r; [reflexivity|].
  now rewrite !dropOne_cons, (dropPrefix_cut p c Hp), IH.
Qed.

Definition cuts (c : ascii) : bool :=
  forallb (fun p => negb (existsb (Nat.eqb (nat_of_ascii c)) p)) whiteSpace.

Lemma isWhiteSpace_cut c l r :
  cuts c = true -> isWhiteSpace (l ++ c :: r) = isWhiteSpace l.
Proof.
  intros Hc. unfold isWhiteSpace. apply bool_decide_ext, dropOne_cut.
  apply Forall_forall. intros p Hp Hin.
  unfold cuts in Hc. rewrite forallb_forall in Hc.
  apply list_elem_of_In in Hp.
  specialize (Hc p Hp). apply negb_true_iff in Hc.
  assert (existsb (Nat.eqb (nat_of_ascii c)) p = true) as Hex; [|congruence].
  apply existsb_exists. exists (nat_of_ascii c).
  split; [exact Hin|apply Nat.eqb_refl].
Qed.

Lemma hasWhiteSpace_dot l r :
  hasWhiteSpace (l ++ "."%char :: r) = hasWhiteSpace l || hasWhiteSpace r.
Proof.
  induction l as [|d l IH].
  - reflexivity.
  - cbn [List.app hasWhiteSpace]. rewrite IH.
    change (d :: l ++ "."%char :: r)%list
      with ((d :: l) ++ "."%char :: r)%list.
    rewrite (isWhiteSpace_cut "."%char (d :: l) r eq_refl).
    now rewrite orb_assoc.
Qed.

Lemma emailPart_dot l r :
  emailPart (l ++ "."%char :: r) = emailPart l && emailPart r.
Proof.
  unfold emailPart. rewrite hasWhiteSpace_dot, existsb_app.
  cbn [existsb]. change (isAt "."%char) with false. cbn [orb].
  destruct (hasWhiteSpace l), (hasWhiteSpace r), (existsb isAt l),
    (existsb isAt r); reflexivity.
Qed.

Lemma emailPart_not_at l : emailPart l = true -> existsb isAt l = false.
Proof.
  unfold emailPart. rewrite andb_true_iff, !negb_true_iff. now intros [_ H].
Qed.

Lemma inner_dot after :
  existsb isDot (removelast (tl after)) = true <->
  exists x m1 m2 y,
    after = (x :: m1 ++ "."%char :: m2 ++ [y])%list.
Proof.
  split.
  - destruct after as [|x t]; [discriminate|]. cbn [tl].
    destruct (list_eq_nil_dec t) as [->|Ht]; [discriminate|].
    intros H. apply existsb_exists in H as (d & Hin & Hd).
    apply Ascii.eqb_eq in Hd. subst d.
    apply in_split in Hin as (m1 & m2 & Hsplit).
    exists x, m1, m2, (List.last t "."%char).
    rewrite (app_removelast_last "."%char Ht) at 1. rewrite Hsplit.
    now rewrite <- app_assoc.
  - intros (x & m1 & m2 & y & ->). cbn [tl].
    replace (m1 ++ "."%char :: m2 ++ [y])%list
      with ((m1 ++ "."%char :: m2) ++ [y])%list
      by now rewrite <- app_assoc.
    rewrite removelast_last. rewrite existsb_app. simpl.
    now rewrite orb_true_r.
Qed.

(** X12. [isValidEmail] accepts exactly the texts the pattern describes;
    white space here is all of the pattern's [\s], so that an address
    with a no-break space (U+00A0) in it is turned down. *)
Theorem isValidEmail_matches_pattern (email : string) :
  (isValidEmail email = true <-> matchesPattern (list_ascii_of_string email))
  /\ isValidEmail
       ("a@b" +:+ String (ascii_of_nat 194) (String (ascii_of_nat 160) ".c"))
     = false.
Proof.
  split; [|vm_compute; reflexivity].
  unfold isValidEmail, matchesPattern. split.
  - destruct (splitAt (list_ascii_of_string email)) as [[before after]|]
      eqn:Hsplit; [|discriminate].
    rewrite !andb_true_iff. intros [[[Hne Hb] Ha] Hdot].
    apply inner_dot in Hdot as (x & m1 & m2 & y & ->).
    apply splitAt_Some in Hsplit.
    exists before, (x :: m1), (m2 ++ [y])%list.
    change (x :: m1 ++ "."%char :: m2 ++ [y])%list
      with ((x :: m1) ++ "."%char :: m2 ++ [y])%list in Ha.
    rewrite emailPart_dot in Ha. apply andb_true_iff in Ha as [Hb' Hc].
    repeat split.
    + intros ->. discriminate Hne.
    + discriminate.
    + now destruct m2.
    + exact Hb.
    + exact Hb'.
    + exact Hc.
    + exact Hsplit.
  - intros (a & b & c & Ha & Hb & Hc & Fa & Fb & Fc & ->).
    rewrite (splitAt_app a _ (emailPart_not_at a Fa)).
    rewrite !andb_true_iff. repeat split.
    + destruct a; [now destruct Ha|reflexivity].
    + exact Fa.
    + now rewrite emailPart_dot, Fb, Fc.
    + apply inner_dot. destruct b as [|x b]; [now destruct Hb|].
      destruct (exists_last Hc) as (c' & y & ->).
      exists x, b, c', y. reflexivity.
Qed.

End EmailFacts.

(** ** Further properties of the gateway *)

Module GatewayMoreFacts.
Import Gateway GatewayExport.

(** X13. [request] calls the show-auth-modal hook in one situation only: a
    hook is registered, the status is 401 and the parsed body carries
    the flag.  A rejected [fetch], an unreadable body and every other
    status never reach it. *)
Theorem request_hook_only_on_flagged_401 (authManager : bool)
    (endpoint : string) (o : options) (net : fetchOutcome) :
  In ShowAuthModal (request authManager endpoint o net).1 <->
  authManager = true /\
  exists data, net = Responds 401 (inr data) /\ auth_error data = true.
Proof.
  unfold request, tryBlock. split.
  - destruct net as [e|status [e|data]]; cbn -[N.eqb ok];
      try (intros [H|[]]; discriminate H).
    destruct (ok status); cbn -[N.eqb];
      try (intros [H|[]]; discriminate H).
    destruct (N.eqb_spec status 401) as [->|Hne]; cbn -[N.eqb];
      try (intros [H|[]]; discriminate H).
    destruct (auth_error data) eqn:Hflag; cbn;
      try (intros [H|[]]; discriminate H).
    destruct authManager; cbn; try (intros [H|[]]; discriminate H).
    intros _. split; [reflexivity|]. now exists data.
  - intros [-> (data & -> & Hflag)]. cbn. rewrite Hflag. cbn.
    right. now left.
Qed.

(** X14. [request] returns a value exactly when the status is in 200..299
    and the body could be parsed, and the value is that body unchanged,
    also when it carries the authentication flag. *)
Theorem request_returns_iff_ok (authManager : bool) (endpoint : string)
    (o : options) (net : fetchOutcome) (data : jsonData) :
  (request authManager endpoint o net).2 = inr data <->
  exists status, net = Responds status (inr data) /\ ok status = true.
Proof.
  unfold request, tryBlock. split.
  - destruct net as [e|status [e|d]]; cbn -[N.eqb ok]; try discriminate.
    destruct (ok status) eqn:Hok; cbn -[N.eqb].
    + intros H. injection H as ->. now exists status.
    + destruct ((status =? 401)%N && auth_error d); cbn; discriminate.
  - intros (status & -> & Hok). cbn -[N.eqb ok]. now rewrite Hok.
Qed.

(** X15. A rejected [fetch] whose error is a [TypeError] that mentions
    [fetch] is reported by [request] as the network error, whereas
    [exportResults] throws the browser's error on unchanged. *)
Theorem network_error_translated_by_request_only (authManager : bool)
    (endpoint resultId format : string) (o : options) (e : jsError) :
  name e = "TypeError" -> includes "fetch" (message e) = true ->
  (request authManager endpoint o (FetchRejects e)).2 = inl NetworkError /\
  (exportResults authManager resultId format (ExportRejects e)).2 = inl e.
Proof.
  intros Hname Hmsg. split; [|reflexivity].
  unfold request, tryBlock, catchClause. cbn [snd].
  now rewrite Hname, Hmsg.
Qed.

Lemma network_error_translated_by_request_only_witness :
  (request true "/datasets" noOptions
     (FetchRejects (JsError "TypeError" "Failed to fetch"))).2
  = inl NetworkError.
Proof.
  apply (network_error_translated_by_request_only true "/datasets" "r1" "csv"
           noOptions (JsError "TypeError" "Failed to fetch"));
    reflexivity.
Defined.



(** X17. [exportResults] saves a file exactly when the status is in 200..299
    and the blob could be read; the file is then named
    [query_results_<id>.<format>] and holds the blob. *)
Theorem export_saves_iff_ok (authManager : bool) (resultId format : string)
    (net : exportOutcome) (fileName content : string) :
  In (SaveAs fileName content)
     (exportResults authManager resultId format net).1 <->
  fileName = "query_results_" +:+ resultId +:+ "." +:+ format /\
  exists status json,
    net = ExportResponds status json (inr content) /\ ok status = true.
Proof.
  unfold exportResults. split.
  - destruct net as [e|status json blob]; cbn -[N.eqb ok String.append].
    { intros [H|[]]. discriminate H. }
    destruct (ok status) eqn:Hok; cbn -[N.eqb String.append].
    + destruct blob as [e|c]; cbn -[String.append].
      * intros [H|[]]. discriminate H.
      * intros [H|[H|[]]]; [discriminate H|]. injection H as <- <-.
        split; [reflexivity|]. now exists status, json.
    + destruct (status =? 401)%N; cbn -[String.append].
      * destruct authManager; cbn -[String.append];
          intros H; repeat destruct H as [H|H]; try discriminate H;
          now destruct H.
      * destruct json; cbn -[String.append]; intros [H|[]];
          discriminate H.
  - intros (-> & status & json & -> & Hok). cbn -[N.eqb ok String.append].
    rewrite Hok. cbn -[String.append]. right. now left.
Qed.



End GatewayMoreFacts.

(** ** Properties of the login page *)

Module LoginFlowFacts.
Import Gateway Login LoginFlow.

(** The form that a navigation shows. *)
Definition shown (nav : navigation) (p : page) : option string :=
  match nav with
  | ToLogin => loginForm p
  | ToRegister => registerForm p
  | ToAdminRegister => adminRegisterForm p
  end.

Definition titleOf (nav : navigation) : string :=
  match nav with
  | ToLogin => "Welcome Back"
  | ToRegister => "Join AMMINA"
  | ToAdminRegister => "Admin Registration"
  end.

(** The page has the three containers and the title. *)
Definition complete (p : page) : Prop :=
  is_Some (loginForm p) /\ is_Some (registerForm p) /\
  is_Some (adminRegisterForm p) /\ is_Some (loginTitle p).

Lemma navigate_complete p nav : complete p -> complete (navigate p nav).
Proof.
  intros ([a Ha] & [b Hb] & [c Hc] & [d Hd]).
  unfold complete.
  destruct nav; cbn; rewrite Ha, Hb, Hc, Hd; cbn; repeat split; eauto.
Qed.

Lemma navigate_all_complete navs :
  forall p, complete p -> complete (fold_left navigate navs p).
Proof.
  induction navs as [|nav navs IH]; intros p Hp; [exact Hp|].
  cbn. apply IH. now apply navigate_complete.
Qed.

(** X19. After any sequence of navigations on a page that has the three
    containers, exactly the container of the last navigation is
    displayed, the two others are hidden, and the title is the one of
    that view; toasts and pending redirects are untouched. *)
Theorem views_are_exclusive (p : page) (navs : list navigation)
    (last : navigation) :
  complete p ->
  let p' := fold_left navigate (navs ++ [last]) p in
  (forall nav, shown nav p' = Some (if decide (nav = last) then "block"
                                    else "none")) /\
  loginTitle p' = Some (titleOf last) /\
  toasts p' = toasts p /\ redirects p' = redirects p.
Proof.
  intros Hp p'. subst p'. rewrite fold_left_app. cbn [fold_left].
  assert (toasts (fold_left navigate navs p) = toasts p /\
          redirects (fold_left navigate navs p) = redirects p) as [Ht Hr].
  { clear Hp. revert p. induction navs as [|nav navs IH]; intros p;
      [now split|].
    cbn [fold_left]. destruct (IH (navigate p nav)) as [-> ->].
    now destruct nav. }
  pose proof (navigate_all_complete navs p Hp)
    as ([a Ha] & [b Hb] & [c Hc] & [d Hd]).
  revert Ht Hr Ha Hb Hc Hd. generalize (fold_left navigate navs p).
  intros q Ht Hr Ha Hb Hc Hd.
  destruct last; cbn; rewrite Hd;
    (split; [intros []; cbn; rewrite ?Ha, ?Hb, ?Hc; reflexivity
            |now repeat split]).
Qed.

Definition emptyPage : page :=
  Page (Some "block") (Some "none") (Some "none") (Some "Welcome Back")
       (Some "Please sign in to continue") None None None [] [].

Lemma views_are_exclusive_witness :
  shown ToRegister
    (fold_left navigate ([ToAdminRegister; ToLogin] ++ [ToRegister])
       emptyPage)
  = Some "block".
Proof.
  destruct (views_are_exclusive emptyPage [ToAdminRegister; ToLogin]
              ToRegister) as [H _].
  - unfold complete, emptyPage; cbn; repeat split; eauto.
  - exact (H ToRegister).
Defined.

Lemma redirectLater_changes (url : string) (l : list string) :
  (l ++ [url])%list <> l.
Proof.
  intros H. apply (f_equal length) in H. rewrite length_app in H.
  cbn in H. lia.
Qed.

Lemma settle_redirects welcome fallback net p :
  redirects (settle welcome fallback net p) <> redirects p <->
  exists data, net = AuthResponds (inr data) /\ success data = true.
Proof.
  unfold settle. destruct net as [e|[e|data]]; cbn.
  - split; [intros H; now destruct H|intros (d & H & _); discriminate H].
  - split; [intros H; now destruct H|intros (d & H & _); discriminate H].
  - destruct (success data) eqn:Hs; cbn.
    + split; [intros _; now exists data|intros _; apply redirectLater_changes].
    + split; [intros H; now destruct H|].
      intros (d & H & Hd). injection H as <-. congruence.
Qed.

(** The policy and the confirmation admit the submitted password. *)
Definition admitted (fd : formData) (password : JsString.t) : Prop :=
  fd_password fd = Some password /\
  valid (validatePassword password) = true /\
  fd_confirmPassword fd = Some password.

Lemma differs_false password confirm :
  differs password confirm = false <-> confirm = Some password.
Proof.
  unfold differs. rewrite negb_false_iff. apply bool_decide_eq_true.
Qed.

(** X20. [handleRegister] sends a request exactly when the password passes
    the policy and equals its confirmation, and [handleAdminRegister]
    exactly when in addition the admin key is not blank; the request
    then carries the password and the key as typed. *)
Theorem registration_request_iff (fd : formData) (net : authOutcome)
    (p : page) :
  (forall r, In r (handleRegister fd net p).1 <->
             exists password,
               admitted fd password /\
               r = RegisterRequest (fd_name fd) (fd_email fd) password) /\
  (forall r, In r (handleAdminRegister fd net p).1 <->
             exists password adminKey,
               admitted fd password /\
               fd_adminKey fd = Some adminKey /\ Js.trim adminKey <> "" /\
               r = AdminRegisterRequest (fd_name fd) (fd_email fd) password
                     adminKey).
Proof.
  unfold handleRegister, handleAdminRegister, admitted. split; intros r.
  - destruct (fd_password fd) as [pw|]; cbn.
    2:{ split; [intros []|intros (x & (H & _) & _); discriminate H]. }
    destruct (valid (validatePassword pw)) eqn:Hv; cbn.
    2:{ split; [intros []|].
        intros (x & (H & Hx & _) & _). injection H as <-. congruence. }
    destruct (differs pw (fd_confirmPassword fd)) eqn:Hd; cbn.
    + split; [intros []|]. intros (x & (H & _ & Hc) & _).
      injection H as <-. apply differs_false in Hc. congruence.
    + apply differs_false in Hd. split.
      * intros [<-|[]]. now exists pw.
      * intros (x & (H & _) & ->). injection H as <-. now left.
  - destruct (fd_password fd) as [pw|]; cbn.
    2:{ split; [intros []|intros (x & k & (H & _) & _); discriminate H]. }
    destruct (valid (validatePassword pw)) eqn:Hv; cbn.
    2:{ split; [intros []|].
        intros (x & k & (H & Hx & _) & _). injection H as <-. congruence. }
    destruct (differs pw (fd_confirmPassword fd)) eqn:Hd; cbn.
    { split; [intros []|]. intros (x & k & (H & _ & Hc) & _).
      injection H as <-. apply differs_false in Hc. congruence. }
    apply differs_false in Hd.
    destruct (fd_adminKey fd) as [key|]; cbn.
    2:{ split; [intros []|intros (x & k & _ & H & _); discriminate H]. }
    destruct (String.eqb_spec (Js.trim key) "") as [Hk|Hk]; cbn.
    + split; [intros []|]. intros (x & k & _ & H & Hne & _).
      injection H as <-. now destruct Hne.
    + split.
      * intros [<-|[]]. now exists pw, key.
      * intros (x & k & (H & _) & Hkey & _ & ->).
        injection H as <-. injection Hkey as <-. now left.
Qed.

(** X21. Once a handler has sent its request nothing escapes it, and the
    redirect to the application is scheduled exactly when the answer
    could be parsed and declares success; a rejected [fetch] or an
    unreadable answer only adds the retry notice. *)
Theorem redirect_only_after_declared_success (fd : formData)
    (net : authOutcome) (p : page) (h : handled) :
  h = handleLogin fd net p \/ h = handleRegister fd net p \/
  h = handleAdminRegister fd net p ->
  h.1 <> [] ->
  exists p',
    h.2 = inr p' /\
    (redirects p' <> redirects p <->
     exists data, net = AuthResponds (inr data) /\ success data = true) /\
    ((forall data, net <> AuthResponds (inr data)) ->
     p' = showToast "Network error. Please try again." "error" p).
Proof.
  intros Hh Hsent.
  assert (exists welcome fallback,
             h.2 = inr (settle welcome fallback net p))
    as (welcome & fallback & ->).
  { destruct Hh as [->|[->| ->]].
    - do 2 eexists. reflexivity.
    - unfold handleRegister in *.
      destruct (fd_password fd); [|now destruct Hsent].
      destruct (valid _); cbn in *; [|now destruct Hsent].
      destruct (differs _ _); cbn in *; [now destruct Hsent|].
      do 2 eexists. reflexivity.
    - unfold handleAdminRegister in *.
      destruct (fd_password fd); [|now destruct Hsent].
      destruct (valid _); cbn in *; [|now destruct Hsent].
      destruct (differs _ _); cbn in *; [now destruct Hsent|].
      destruct (fd_adminKey fd); [|now destruct Hsent].
      destruct (String.eqb _ _); cbn in *; [now destruct Hsent|].
      do 2 eexists. reflexivity. }
  eexists. split; [reflexivity|]. split.
  - apply settle_redirects.
  - intros Hnet. unfold settle.
    destruct net as [e|[e|d]]; try reflexivity. now destruct (Hnet d).
Qed.

Lemma redirect_only_after_declared_success_witness :
  exists p',
    (handleLogin (Submitted None (Some "ada@example.org")
                    (Some (JsString.units "secret")) None None)
       (AuthResponds (inr (AuthData true None))) emptyPage).2 = inr p' /\
    redirects p' = ["/app"].
Proof.
  destruct (redirect_only_after_declared_success
              (Submitted None (Some "ada@example.org")
                 (Some (JsString.units "secret")) None None)
              (AuthResponds (inr (AuthData true None))) emptyPage
              (handleLogin (Submitted None (Some "ada@example.org")
                              (Some (JsString.units "secret")) None None)
                 (AuthResponds (inr (AuthData true None))) emptyPage))
    as (p' & Hp' & _ & _).
  - now left.
  - discriminate.
  - exists p'. split; [exact Hp'|]. injection Hp' as <-. reflexivity.
Defined.

End LoginFlowFacts.

(** ** Properties of the toasts *)

Module UIToastFacts.
Import UIToast.

Definition ids (s : ui) : list nat := map toast_id (toasts s).

Definition timerId (t : timer) : nat :=
  match t with AutoRemove id | Detach id => id end.

(** The ids in the container are pairwise distinct, and neither a toast
    nor a timer mentions a number above the counter. *)
Definition wellFormed (s : ui) : Prop :=
  NoDup (ids s) /\
  Forall (fun id => id <= toastId s) (ids s) /\
  Forall (fun t => timerId t <= toastId s) (timers s).

Lemma ids_animate id l : map toast_id (animate id l) = map toast_id l.
Proof.
  induction l as [|t l IH]; [reflexivity|]. simpl.
  destruct (hasId id t); simpl; [reflexivity|now rewrite IH].
Qed.

Lemma detach_sublist id l : sublist (map toast_id (detach id l))
                                    (map toast_id l).
Proof.
  induction l as [|t l IH]; [constructor|]. simpl.
  destruct (hasId id t); simpl.
  - now apply sublist_cons.
  - now apply sublist_skip.
Qed.

Lemma detach_In id l x :
  In x (map toast_id (detach id l)) -> In x (map toast_id l).
Proof.
  induction l as [|t l IH]; [intros []|]. simpl.
  destruct (hasId id t); simpl.
  - intros H. now right.
  - intros [H|H]; [now left|right; now apply IH].
Qed.



Lemma removeToast_wellFormed id s :
  wellFormed s -> id <= toastId s -> wellFormed (removeToast id s).
Proof.
  intros (Hnd & Hle & Ht) Hid. unfold removeToast.
  destruct (existsb (hasId id) (toasts s)); [|now repeat split].
  unfold wellFormed, ids. cbn. rewrite ids_animate. repeat split; auto.
  apply Forall_app. split; [exact Ht|]. now repeat constructor.
Qed.

Lemma fire_wellFormed s t :
  wellFormed s -> timerId t <= toastId s -> wellFormed (fire s t).
Proof.
  intros Hwf Hid. destruct t as [id|id]; cbn in *.
  - now apply removeToast_wellFormed.
  - destruct Hwf as (Hnd & Hle & Ht). unfold wellFormed, ids. cbn.
    pose proof (detach_sublist id (toasts s)) as Hsub. repeat split.
    + eapply sublist_NoDup; eassumption.
    + apply List.Forall_forall. intros x Hx.
      rewrite List.Forall_forall in Hle. apply Hle.
      now apply (detach_In id).
    + exact Ht.
Qed.

Lemma fire_toastId s t : toastId (fire s t) = toastId s.
Proof.
  destruct t as [id|id]; cbn; [|reflexivity]. unfold removeToast.
  now destruct (existsb _ _).
Qed.

Lemma fold_fire_wellFormed ts :
  forall s, wellFormed s -> Forall (fun t => timerId t <= toastId s) ts ->
            wellFormed (fold_left fire ts s) /\
            toastId (fold_left fire ts s) = toastId s.
Proof.
  induction ts as [|t ts IH]; intros s Hwf Hts; [now split|].
  apply Forall_cons in Hts as [Ht Hts]. cbn.
  destruct (IH (fire s t)) as [Hwf' Hid'].
  - now apply fire_wellFormed.
  - now rewrite fire_toastId.
  - split; [exact Hwf'|]. now rewrite Hid', fire_toastId.
Qed.

Lemma step_wellFormed s e : wellFormed s -> wellFormed (step s e).
Proof.
  intros Hwf. destruct e as [message type duration|id|k|]; cbn.
  - unfold showToast. destruct (toastContainer s); cbn; [|exact Hwf].
    destruct Hwf as (Hnd & Hle & Ht). unfold wellFormed, ids in *. cbn.
    rewrite map_app. cbn. repeat split.
    + apply NoDup_app. split; [exact Hnd|]. split.
      * intros x Hx ->%list_elem_of_singleton.
        apply list_elem_of_In in Hx.
        rewrite List.Forall_forall in Hle. specialize (Hle _ Hx). lia.
      * apply NoDup_singleton.
    + apply Forall_app. split; [|now repeat constructor].
      eapply Forall_impl; [exact Hle|]. cbn. lia.
    + destruct duration.
      * eapply Forall_impl; [exact Ht|]. cbn. lia.
      * apply Forall_app. split; [|now repeat constructor].
        eapply Forall_impl; [exact Ht|]. cbn. lia.
  - unfold removeToast. destruct (existsb (hasId id) (toasts s)) eqn:Hex;
      [|exact Hwf].
    apply existsb_exists in Hex as (t & Hin & Hid).
    apply Nat.eqb_eq in Hid. subst id.
    assert (toast_id t <= toastId s) as Hle.
    { destruct Hwf as (_ & Hle & _). rewrite List.Forall_forall in Hle.
      apply Hle. unfold ids. now apply in_map. }
    pose proof (removeToast_wellFormed (toast_id t) s Hwf Hle) as H.
    unfold removeToast in H.
    assert (existsb (hasId (toast_id t)) (toasts s) = true) as Hex.
    { apply existsb_exists. exists t. split; [exact Hin|].
      apply Nat.eqb_refl. }
    now rewrite Hex in H.
  - unfold fireOne. destruct (timers s !! k) as [t|] eqn:Hk; [|exact Hwf].
    destruct Hwf as (Hnd & Hle & Ht). apply fire_wellFormed.
    + repeat split; [exact Hnd|exact Hle|]. cbn.
      now apply Forall_delete.
    + cbn. rewrite Forall_lookup in Ht. now apply (Ht k).
  - unfold pass. destruct Hwf as (Hnd & Hle & Ht).
    apply fold_fire_wellFormed; [|exact Ht].
    repeat split; [exact Hnd|exact Hle|constructor].
Qed.

Lemma fold_fire_toastId ts :
  forall u, toastId (fold_left fire ts u) = toastId u.
Proof.
  induction ts as [|t ts IH]; intros u; [reflexivity|].
  cbn. now rewrite IH, fire_toastId.
Qed.

Lemma step_toastId s e : toastId s <= toastId (step s e).
Proof.
  destruct e as [message type duration|id|k|]; cbn.
  - unfold showToast. destruct (toastContainer s); cbn; lia.
  - unfold removeToast. destruct (existsb _ _); cbn; lia.
  - unfold fireOne. destruct (timers s !! k); [|lia].
    rewrite fire_toastId. cbn. lia.
  - unfold pass. rewrite fold_fire_toastId. cbn. lia.
Qed.

(** The value [showToast] returns at a [Show] event. *)
Definition returned (s : ui) (e : event) : list nat :=
  match e with
  | Show message type duration =>
      match (showToast message type duration s).2 with
      | Some id => [id]
      | None => []
      end
  | _ => []
  end.

(** The ids [showToast] returns in the course of the events. *)
Fixpoint returnedIds (es : list event) (s : ui) : list nat :=
  match es with
  | [] => []
  | e :: es => returned s e ++ returnedIds es (step s e)
  end.

Lemma returnedIds_fresh es :
  forall s,
    Forall (fun id => toastId s < id) (returnedIds es s) /\
    NoDup (returnedIds es s).
Proof.
  induction es as [|e es IH]; intros s; [split; constructor|].
  cbn [returnedIds]. destruct (IH (step s e)) as [Hgt Hnd].
  pose proof (step_toastId s e) as Hle.
  assert (Forall (fun id => toastId s < id) (returnedIds es (step s e)))
    as Hgt'.
  { eapply Forall_impl; [exact Hgt|]. cbn. lia. }
  destruct e as [message type duration|id|k|]; cbn [returned List.app];
    try (split; assumption).
  unfold showToast in *. cbn [step] in *. unfold showToast in *.
  destruct (toastContainer s); cbn in *; [|split; assumption].
  split.
  - constructor; [lia|exact Hgt'].
  - constructor; [|exact Hnd]. intros Hin%list_elem_of_In.
    rewrite List.Forall_forall in Hgt. specialize (Hgt _ Hin). lia.
Qed.

(** X22. Whatever is shown, removed and timed out, starting from [init]: the
    toasts in the container have pairwise distinct ids, and the ids
    [showToast] has returned are pairwise distinct as well, so that no
    id is ever given out again, not even that of a toast long gone. *)
Theorem toast_ids_are_never_reused (container : bool) (es : list event) :
  NoDup (ids (fold_left step es (init container))) /\
  NoDup (returnedIds es (init container)).
Proof.
  split.
  - assert (forall s, wellFormed s -> wellFormed (fold_left step es s)) as H.
    { induction es as [|e es IH]; intros s Hs; [exact Hs|].
      cbn. apply IH. now apply step_wellFormed. }
    apply H. repeat split; constructor.
  - apply returnedIds_fresh.
Qed.














End UIToastFacts.

(** ** Properties of debounce and throttle *)

Module UITimingFacts.
Import UITiming.

Lemma calls_app {A S} (step : S -> event A -> S * list A) (s : S)
    (es es' : list (event A)) :
  calls step s (es ++ es')
  = (calls step s es ++ calls step (final step s es) es')%list.
Proof.
  revert s. induction es as [|e es IH]; intros s; [reflexivity|].
  cbn. now rewrite IH, app_assoc.
Qed.

Lemma last_cons_default {A} (x d d' : A) (l : list A) :
  List.last (x :: l) d = List.last (x :: l) d'.
Proof.
  revert x. induction l as [|y l IH]; intros x; [reflexivity|].
  change (List.last (y :: l) d = List.last (y :: l) d'). apply IH.
Qed.

Lemma debounce_burst_trailing {A} (burst : list A) :
  forall (timeout : debounced A) (args : A),
    calls (debounceStep false) timeout (map Call (args :: burst)) = [] /\
    final (debounceStep false) timeout (map Call (args :: burst))
    = Some (List.last burst args).
Proof.
  induction burst as [|b burst IH]; intros timeout args; [now split|].
  destruct (IH (Some args) b) as [Hc Hf].
  change (map Call (args :: b :: burst))
    with (Call args :: map Call (b :: burst)).
  cbn [calls final debounceStep fst snd andb List.app].
  rewrite Hc, Hf. split; [reflexivity|]. f_equal.
  destruct burst as [|c burst]; [reflexivity|].
  change (List.last (c :: burst) b = List.last (c :: burst) args).
  apply last_cons_default.
Qed.

Lemma debounce_burst_leading {A} (burst : list A) :
  forall (args : A),
    calls (debounceStep true) (Some args) (map Call burst) = [] /\
    is_Some (final (debounceStep true) (Some args) (map Call burst)).
Proof.
  induction burst as [|b burst IH]; intros args; [split; eauto|].
  destruct (IH b) as [Hc Hf]. cbn. now split.
Qed.

(** X25. A burst of calls of a debounced function followed by the expiry of
    the timeout calls [func] exactly once: with the arguments of the
    last call of the burst, after the expiry, when [immediate] is off;
    with those of the first call, at once, when it is on.  Either way
    the wrapper is idle again afterwards. *)
Theorem debounce_burst_calls_once {A} (immediate : bool) (first : A)
    (burst : list A) :
  let es := (map Call (first :: burst) ++ [Expire])%list in
  calls (debounceStep immediate) None es
  = [if immediate then first else List.last burst first] /\
  calls (debounceStep immediate) None (map Call (first :: burst))
  = (if immediate then [first] else []) /\
  final (debounceStep immediate) None es = None.
Proof.
  destruct immediate; cbn zeta.
  - destruct (debounce_burst_leading burst first) as [Hc [x Hx]].
    rewrite calls_app.
    change (map Call (first :: burst)) with (Call first :: map Call burst).
    cbn [calls final debounceStep fst snd]. rewrite Hc.
    assert (final (debounceStep true) None
              (Call first :: map Call burst ++ [Expire]) = None) as Hfin.
    { cbn [final debounceStep fst List.app].
      clear Hc Hx. generalize (Some first). 
      induction burst as [|b burst IH]; intros t.
      - cbn. now destruct t.
      - cbn. apply IH. }
    cbn [final debounceStep fst] in Hx. rewrite Hx. cbn.
    repeat split. exact Hfin.
  - destruct (debounce_burst_trailing burst None first) as [Hc Hf].
    rewrite calls_app, Hc, Hf. cbn. repeat split.
    assert (forall (es : list (event A)) s,
               final (debounceStep false) s (es ++ [Expire]) = None) as H.
    { induction es as [|e es IH]; intros s.
      - cbn. now destruct s.
      - cbn. apply IH. }
    apply (H (map Call (first :: burst)) None).
Qed.

(** The timeout that clears the flag is pending exactly while the flag
    is set. *)
Definition coherent (s : throttled) : Prop :=
  inThrottle s = resetPending s.

Lemma throttle_bound {A} (es : list (event A)) :
  forall s, coherent s ->
    length (calls throttleStep s es)
    + (if inThrottle s then 1 else 0)
    <= S (length (List.filter
                    (fun e => match e with Expire => true | _ => false end)
                    es)).
Proof.
  induction es as [|e es IH]; intros [flag pending] Hs;
    unfold coherent in Hs; cbn in Hs; subst pending.
  - cbn. destruct flag; lia.
  - destruct e as [args|]; destruct flag; cbn -[length List.filter];
      cbn [List.filter].
    + specialize (IH (Throttled true true) eq_refl). cbn in IH |- *. lia.
    + specialize (IH (Throttled true true) eq_refl).
      cbn in IH |- *. lia.
    + specialize (IH (Throttled false false) eq_refl).
      cbn in IH |- *. lia.
    + specialize (IH (Throttled false false) eq_refl).
      cbn in IH |- *. lia.
Qed.

(** X26. A throttled function calls [func] for the first call and then at
    most once per expired timeout: over any sequence of events the
    number of calls of [func] is at most one more than the number of
    expiries, and a burst without expiry gets through its first call
    only. *)
Theorem throttle_once_per_expiry {A} (es : list (event A)) (first : A)
    (burst : list A) :
  length (calls throttleStep (Throttled false false) es)
  <= S (length (List.filter
                  (fun e => match e with Expire => true | _ => false end)
                  es)) /\
  calls throttleStep (Throttled false false) (map Call (first :: burst))
  = [first].
Proof.
  split.
  - pose proof (throttle_bound es (Throttled false false) eq_refl) as H.
    cbn [inThrottle] in H. lia.
  - cbn. f_equal. induction burst as [|b burst IH]; [reflexivity|].
    cbn. exact IH.
Qed.

End UITimingFacts.

(** ** Further properties of rendering *)

Module RenderingFacts.
Import Js Html QueryResult AMINAAppRender DataTableFacts.



(** The bytes are white space characters, one after another. *)
Inductive blankBytes : list ascii -> Prop :=
| blank_nil : blankBytes []
| blank_cons p l :
    In p whiteSpace -> blankBytes l ->
    blankBytes (map ascii_of_nat p ++ l)%list.

(** The string consists of white space only. *)
Definition blank (s : string) : Prop :=
  blankBytes (list_ascii_of_string s).

Lemma blank_snoc l p :
  blankBytes l -> In p whiteSpace ->
  blankBytes (l ++ map ascii_of_nat p)%list.
Proof.
  intros Hl Hp. induction Hl as [|q l Hq _ IH].
  - simpl. rewrite <- (app_nil_r (map ascii_of_nat p)).
    apply blank_cons; [exact Hp|constructor].
  - rewrite <- app_assoc. now constructor.
Qed.

Lemma dropPrefix_Some p l r :
  dropPrefix p l = Some r -> l = (map ascii_of_nat p ++ r)%list.
Proof.
  revert l. induction p as [|n p IH]; intros l H.
  - now injection H as ->.
  - destruct l as [|c l]; [discriminate H|]. simpl in H.
    destruct (Nat.eqb_spec n (nat_of_ascii c)) as [->|_]; [|discriminate H].
    simpl. rewrite ascii_nat_embedding. f_equal. now apply IH.
Qed.

Lemma dropOne_Some codes l r :
  dropOne codes l = Some r ->
  exists p, In p codes /\ l = (map ascii_of_nat p ++ r)%list.
Proof.
  induction codes as [|p codes IH]; [discriminate|]. simpl.
  destruct (dropPrefix p l) as [x|] eqn:Hp.
  - intros [= ->]. exists p. split; [now left|now apply dropPrefix_Some].
  - intros H. destruct (IH H) as (q & Hq & Heq). exists q.
    split; [now right|exact Heq].
Qed.

Lemma dropOne_white p rest :
  In p whiteSpace ->
  dropOne whiteSpace (map ascii_of_nat p ++ rest) = Some rest /\
  dropOne (map (@rev nat) whiteSpace) (map ascii_of_nat (rev p) ++ rest)
  = Some rest /\
  (0 < List.length p)%nat.
Proof.
  intros H. unfold whiteSpace in H. simpl in H.
  repeat (destruct H as [<-|H];
          [split; [reflexivity|split; [reflexivity|simpl; lia]]|]).
  destruct H.
Qed.

Lemma dropAll_keeps_blank fuel l :
  blankBytes (dropAll fuel whiteSpace l) -> blankBytes l.
Proof.
  revert l. induction fuel as [|fuel IH]; intros l; [trivial|].
  cbn [dropAll].
  destruct (dropOne whiteSpace l) as [l'|] eqn:Hl; [|trivial].
  intros H. apply dropOne_Some in Hl as (p & Hp & ->).
  apply blank_cons; [exact Hp|exact (IH _ H)].
Qed.

Lemma dropAll_rev_blank fuel l :
  dropAll fuel (map (@rev nat) whiteSpace) l = [] -> blankBytes (rev l).
Proof.
  revert l. induction fuel as [|fuel IH]; intros l; cbn [dropAll].
  - intros ->. constructor.
  - destruct (dropOne _ l) as [l'|] eqn:Hl; [|intros ->; constructor].
    intros H. apply dropOne_Some in Hl as (q & Hq & ->).
    apply in_map_iff in Hq as (p & <- & Hp).
    rewrite rev_app_distr, <- map_rev, rev_involutive.
    apply blank_snoc; [now apply IH|exact Hp].
Qed.

Lemma dropAll_blank l :
  blankBytes l ->
  forall fuel, (List.length l <= fuel)%nat -> dropAll fuel whiteSpace l = [].
Proof.
  induction 1 as [|p l Hp _ IH]; intros fuel Hfuel.
  - now destruct fuel.
  - destruct (dropOne_white p l Hp) as (Hdrop & _ & Hlen).
    rewrite length_app, length_map in Hfuel.
    destruct fuel as [|fuel]; [lia|]. cbn [dropAll]. rewrite Hdrop.
    apply IH. lia.
Qed.

Lemma string_of_list_ascii_nil l : string_of_list_ascii l = "" -> l = [].
Proof. now destruct l. Qed.

Lemma trim_empty_iff s : trim s = "" <-> blank s.
Proof.
  unfold trim, trimEnd, trimStart, blank. split.
  - intros H. apply string_of_list_ascii_nil in H.
    rewrite list_ascii_of_string_of_list_ascii in H.
    unfold trimEndBytes in H.
    apply (f_equal (@rev ascii)) in H. rewrite rev_involutive in H.
    cbn [rev] in H. apply dropAll_rev_blank in H.
    rewrite rev_involutive in H.
    now apply dropAll_keeps_blank in H.
  - intros H. unfold trimStartBytes.
    now rewrite (dropAll_blank _ H _ (Nat.le_refl _)).
Qed.

(** X28. The response block is left out exactly when the response is absent
    or consists of white space only; otherwise there is one block, which
    holds the response with every line feed turned into a line break and
    nothing else changed. *)
Theorem responseBlock_iff_not_blank (result : QueryResult.t) :
  (PharmaQueryApp.responseBlock result = [] <->
   match response result with Some text => blank text | None => True end) /\
  (forall text,
      response result = Some text -> ~ blank text ->
      PharmaQueryApp.responseBlock result
      = [ Elem "div" [("class", "result-item")]
            [ Elem "div" [("class", "response-content")]
                [Raw (replaceNewlines "<br>" text)] ] ]).
Proof.
  unfold PharmaQueryApp.responseBlock, PharmaQueryApp.formatResponseText.
  destruct (response result) as [text|]; cbn [truthy interpolate].
  2:{ split; [now split|discriminate]. }
  assert (blank "") as Hempty by apply blank_nil.
  destruct (String.eqb_spec text "") as [->|Hne]; cbn [negb andb].
  { split; [now split|]. intros t Ht Hb. injection Ht as <-.
    now destruct Hb. }
  destruct (String.eqb_spec (trim text) "") as [Ht|Ht]; cbn [negb].
  - apply trim_empty_iff in Ht. split; [now split|].
    intros t Heq Hb. injection Heq as <-. now destruct Hb.
  - split.
    + split; [discriminate|]. intros Hb. apply trim_empty_iff in Hb.
      now destruct Ht.
    + intros t Heq _. injection Heq as <-. reflexivity.
Qed.

End RenderingFacts.

(** ** A further property of the password policy *)

Module PolicyFacts.
Import JsString Login.

Lemma contains_app cls (before extra after : JsString.t) :
  contains cls (before ++ after)%list -> contains cls (before ++ extra ++ after)%list.
Proof.
  intros (c & Hin & Hc). exists c. split; [|exact Hc].
  apply in_app_or in Hin as [H|H]; apply in_or_app.
  - now left.
  - right. apply in_or_app. now right.
Qed.

(** X29. The policy is monotone: a password that is accepted stays accepted
    when characters are inserted anywhere into it. *)
Theorem valid_password_stays_valid (before extra after : JsString.t) :
  valid (validatePassword (before ++ after)%list) = true ->
  valid (validatePassword (before ++ extra ++ after)%list) = true.
Proof.
  rewrite !LoginFacts.validatePassword_valid_iff.
  intros (Hlen & Hu & Hl & Hn & Hs). repeat split;
    try (now apply contains_app).
  rewrite !length_app in *. lia.
Qed.

Lemma valid_password_stays_valid_witness :
  valid (validatePassword (units "Str0ng" ++ units " and long " ++ units "!Pw")%list)
  = true.
Proof.
  apply (valid_password_stays_valid (units "Str0ng") (units " and long ")
           (units "!Pw")).
  vm_compute. reflexivity.
Defined.

End PolicyFacts.
